(** * pylogfig: the configuration loader of [pylogfig/main.py]

    A shallow embedding of the [Config] class: the format dispatcher
    [_load_config], the parsers with logic of their own
    ([parse_properties_file], [parse_xml_file], [parse_ini_file] and the thin
    wrappers around [json], [yaml], [tomllib] and [dotenv]), the singleton
    constructor [__new__]/[_setup], [load_logging_config] and the dotted-key
    lookup [get].

    Python values are an inductive type, dictionaries are finite maps keyed
    by strings, exceptions are values of an error monad that also threads the
    process state (the heap of [Config] objects, the class attribute
    [Config._instance] and a trace of observable events). *)

From Stdlib Require Import ZArith Ascii String Lia.
From stdpp Require Import base gmap strings list fin_maps option.

Set Warnings "-register-all".
Local Open Scope string_scope.
Local Open Scope list_scope.

(** ** Python values *)

(** The values a configuration tree is made of.  Numbers are the integers;
    a [str] is a sequence of code points below 256. *)
Inductive pyval : Type :=
| VNone
| VBool (b : bool)
| VInt (z : Z)
| VStr (s : string)
| VList (l : list pyval)
| VDict (d : gmap string pyval).

(** [bool(v)]: the truth value Python gives [v] in an [if]. *)
Definition truthy (v : pyval) : bool :=
  match v with
  | VNone => false
  | VBool b => b
  | VInt z => negb (Z.eqb z 0)
  | VStr s => negb (String.eqb s EmptyString)
  | VList l => match l with [] => false | _ => true end
  | VDict d => negb (bool_decide (d = ∅))
  end.

(** [v is None] *)
Definition is_None (v : pyval) : bool :=
  match v with VNone => true | _ => false end.

(** [v == s] for a string literal [s]. *)
Definition eq_str (v : pyval) (s : string) : bool :=
  match v with VStr t => String.eqb t s | _ => false end.

(** [repr(type(v))] *)
Definition type_repr (v : pyval) : string :=
  match v with
  | VNone => "<class 'NoneType'>"
  | VBool _ => "<class 'bool'>"
  | VInt _ => "<class 'int'>"
  | VStr _ => "<class 'str'>"
  | VList _ => "<class 'list'>"
  | VDict _ => "<class 'dict'>"
  end.

(** [type(v).__name__] *)
Definition type_name (v : pyval) : string :=
  match v with
  | VNone => "NoneType"
  | VBool _ => "bool"
  | VInt _ => "int"
  | VStr _ => "str"
  | VList _ => "list"
  | VDict _ => "dict"
  end.

(** ** The string methods the source uses *)

(** [c.isspace()] on code points below 256: tab, line feed, vertical tab,
    form feed, carriage return, the separators 28 to 31, space, NEL (133)
    and the no-break space (160). *)
Definition isspace (c : ascii) : bool :=
  let n := nat_of_ascii c in
  ((9 <=? n) && (n <=? 13) || (28 <=? n) && (n <=? 32)
   || (n =? 133) || (n =? 160))%nat.

Fixpoint lstrip (s : string) : string :=
  match s with
  | EmptyString => EmptyString
  | String c r => if isspace c then lstrip r else s
  end.

Fixpoint rstrip (s : string) : string :=
  match s with
  | EmptyString => EmptyString
  | String c r =>
      match rstrip r with
      | EmptyString => if isspace c then EmptyString else String c EmptyString
      | r' => String c r'
      end
  end.

(** [s.strip()] *)
Definition strip (s : string) : string := rstrip (lstrip s).

(** [s.startswith(c)] for a one-character prefix. *)
Definition startswith (c : ascii) (s : string) : bool :=
  match s with
  | String d _ => Ascii.eqb d c
  | EmptyString => false
  end.

(** [c in s] for a one-character [c]. *)
Fixpoint contains (c : ascii) (s : string) : bool :=
  match s with
  | EmptyString => false
  | String d r => Ascii.eqb d c || contains c r
  end.

(** [s.split(sep, maxsplit)] for a one-character separator; [maxsplit] is
    [None] where the source gives none (split everywhere). *)
Fixpoint split (sep : ascii) (maxsplit : option nat) (s : string) : list string :=
  match s with
  | EmptyString => [EmptyString]
  | String c r =>
      let cut := Ascii.eqb c sep
                 && match maxsplit with Some O => false | _ => true end in
      if cut then EmptyString :: split sep (Nat.pred <$> maxsplit) r
      else match split sep maxsplit r with
           | hd :: tl => String c hd :: tl
           | [] => [String c EmptyString]
           end
  end.


(** ** Exceptions *)

(** The exception classes that can reach this module: its own
    [ConfigParseError], the built-in ones it raises or meets, and the error
    classes of the parsing libraries. *)
Inductive exn_class : Type :=
| Exception
| ConfigParseError
| ValueError
| TypeError
| AttributeError
| SyntaxError
| OSError
| FileNotFoundError
| PermissionError
| UnicodeDecodeError
| TOMLDecodeError
| JSONDecodeError
| YAMLError
| ConfigparserError
| XMLParseError.

#[global] Instance exn_class_eq_dec : EqDecision exn_class.
Proof. solve_decision. Defined.

(** The direct base class; [Exception] is the root of what [except
    Exception] catches.  [IOError] is Python's alias of [OSError]. *)
Definition base_class (c : exn_class) : option exn_class :=
  match c with
  | Exception => None
  | FileNotFoundError | PermissionError => Some OSError
  | UnicodeDecodeError | TOMLDecodeError | JSONDecodeError => Some ValueError
  | XMLParseError => Some SyntaxError
  | _ => Some Exception
  end.

Fixpoint issubclass_fuel (fuel : nat) (c d : exn_class) : bool :=
  bool_decide (c = d)
  || match fuel, base_class c with
     | S fuel', Some b => issubclass_fuel fuel' b d
     | _, _ => false
     end.

(** [issubclass(c, d)]; no chain of bases is longer than three. *)
Definition issubclass (c d : exn_class) : bool := issubclass_fuel 3 c d.

(** The text of a message, kept as the pieces of its f-string: literal text
    and the values formatted into it. *)
Inductive piece : Type :=
| Lit (s : string)
| Fmt (v : pyval).

Definition message : Type := list piece.

(** The string a message denotes, given [str()] on values. *)
Fixpoint render (str_of : pyval -> string) (m : message) : string :=
  match m with
  | [] => EmptyString
  | Lit s :: r => s ++ render str_of r
  | Fmt v :: r => str_of v ++ render str_of r
  end.

Record exn : Type := mk_exn { exn_cls : exn_class; exn_msg : message }.

(** [isinstance(e, (c1, ..., cn))], the test of an [except] clause. *)
Definition caught_by (e : exn) (cs : list exn_class) : bool :=
  existsb (issubclass (exn_cls e)) cs.
Arguments caught_by : simpl never.

Inductive res (A : Type) : Type :=
| Ok (a : A)
| Err (e : exn).
Arguments Ok {A} a.
Arguments Err {A} e.

(** ** The world outside the module *)

Inductive parser : Type :=
| Toml | Json | Yaml | Ini | Xml | Properties | Env.

(** An [xml.etree.ElementTree.Element]: [tag], [text] ([None] or a string)
    and the child elements, in document order. *)
Inductive Element : Type :=
| Elem (tag : string) (text : option string) (children : list Element).

Definition tag (e : Element) : string := let 'Elem t _ _ := e in t.
Definition text (e : Element) : option string := let 'Elem _ x _ := e in x.
Definition children (e : Element) : list Element := let 'Elem _ _ c := e in c.

(** What the libraries and the file system answer.  Each field is the
    library call of one parser, given the path argument it receives, with
    the value it returns or the exception it raises. *)
Record World : Type := {
  (** [open(path, 'rb')] and [tomllib.load] *)
  tomllib_load : pyval -> res pyval;
  (** [open(path, 'r')] and [json.load] *)
  json_load : pyval -> res pyval;
  (** [open(path, 'r')] and [yaml.safe_load] *)
  yaml_safe_load : pyval -> res pyval;
  (** [config.read(path)], then [config.sections()] with
      [config.items(section)] for each of them *)
  configparser_read : pyval -> res (list (string * list (string * string)));
  (** [ET.parse(path).getroot()] *)
  ET_parse : pyval -> res Element;
  (** [dotenv_values(path)] *)
  dotenv_values : pyval -> res pyval;
  (** [open(path, 'r')] and the lines its iteration yields *)
  open_lines : pyval -> res (list string);
  (** [logging.config.dictConfig(cfg)]: [None] when it returns *)
  dictConfig : pyval -> option exn
}.

(** ** Process state and the monad of the methods *)

Inductive level : Type := DEBUG | WARNING | ERROR.

(** What a run leaves behind, oldest first: the lines given to [LOGGER],
    the configurations given to [dictConfig], and two marks of what ran,
    [Invoke] on entry to a [parse_*] method and [FileIO] at the library call
    that reads the file. *)
Inductive event : Type :=
| Log (lvl : level) (m : message)
| Invoke (p : parser) (path : pyval)
| FileIO (p : parser) (path : pyval)
| DictConfig (cfg : pyval).

(** A [Config] object: its two attributes, unset until [_setup] assigns
    them. *)
Record Obj : Type := mk_obj {
  _config : option pyval;
  _logging_config : option pyval
}.

(** The process: the [Config] objects allocated so far (an object's
    identity is its index), the class attribute [Config._instance], and the
    trace. *)
Record Proc : Type := mk_proc {
  heap : list Obj;
  _instance : option nat;
  trace : list event
}.

Definition M (A : Type) : Type := Proc -> res A * Proc.

Definition ret {A} (a : A) : M A := fun st => (Ok a, st).

Definition bind {A B} (m : M A) (k : A -> M B) : M B :=
  fun st => match m st with
            | (Ok a, st') => k a st'
            | (Err e, st') => (Err e, st')
            end.

Definition raise {A} (c : exn_class) (m : message) : M A :=
  fun st => (Err (mk_exn c m), st).

(** [raise] with no argument inside a handler: the exception in flight. *)
Definition reraise {A} (e : exn) : M A := fun st => (Err e, st).

(** [try: m except cs1 as e: h1 e except cs2 as e: h2 e ...]: the first
    clause whose classes match handles the exception; one that matches no
    clause passes, and so does whatever a handler raises. *)
Fixpoint handle {A} (hs : list (list exn_class * (exn -> M A))) (e : exn) : M A :=
  match hs with
  | [] => fun st => (Err e, st)
  | (cs, h) :: hs' => if caught_by e cs then h e else handle hs' e
  end.

Definition try_except {A} (m : M A) (hs : list (list exn_class * (exn -> M A))) : M A :=
  fun st => match m st with
            | (Ok a, st') => (Ok a, st')
            | (Err e, st') => handle hs e st'
            end.

Definition emit (ev : event) : M unit :=
  fun st => (Ok tt, mk_proc (heap st) (_instance st) (trace st ++ [ev])).

(** The result of a library call enters the monad as it is. *)
Definition lift {A} (r : res A) : M A := fun st => (r, st).

Declare Scope py_scope.
Delimit Scope py_scope with py.
Notation "x <- m ;; k" := (bind m (fun x => k))
  (at level 100, m at next level, right associativity) : py_scope.
Notation "m ;;; k" := (bind m (fun _ => k))
  (at level 100, right associativity) : py_scope.
Local Open Scope py_scope.

Definition debug (m : message) : M unit := emit (Log DEBUG m).
Definition warn (m : message) : M unit := emit (Log WARNING m).
(** [LOGGER.exception] logs at level ERROR. *)
Definition log_exception (m : message) : M unit := emit (Log ERROR m).

(** ** [os.path.splitext]

    The POSIX version of the standard library function the dispatcher
    calls: the extension starts at the last dot of the last path component,
    unless that component has only dots before it. *)

(** Index of the last [c] in [s] counted from [i], or [-1]. *)
Fixpoint rfind_from (c : ascii) (s : string) (i : Z) : Z :=
  match s with
  | EmptyString => (-1)%Z
  | String d r =>
      let j := rfind_from c r (i + 1)%Z in
      if (0 <=? j)%Z then j else if Ascii.eqb d c then i else (-1)%Z
  end.

(** [s.rfind(c)] *)
Definition rfind (c : ascii) (s : string) : Z := rfind_from c s 0.

(** The [while filenameIndex < dotIndex] loop: [true] when a character that
    is not a dot is met, which is where the source returns the split. *)
Fixpoint splitext_scan (p : string) (steps : nat) (filenameIndex : Z) : bool :=
  match steps with
  | O => false
  | S steps' =>
      if negb (String.eqb (substring (Z.to_nat filenameIndex) 1 p) ".") then true
      else splitext_scan p steps' (filenameIndex + 1)%Z
  end.

Definition splitext_str (p : string) : string * string :=
  let sepIndex := rfind "/" p in
  let dotIndex := rfind "." p in
  if (sepIndex <? dotIndex)%Z
     && splitext_scan p (Z.to_nat (dotIndex - (sepIndex + 1))) (sepIndex + 1)%Z
  then (substring 0 (Z.to_nat dotIndex) p,
        substring (Z.to_nat dotIndex) (String.length p - Z.to_nat dotIndex) p)
  else (p, EmptyString).

(** [os.path.splitext(p)]: a [TypeError] for what is not a path. *)
Definition splitext (p : pyval) : M (string * string) :=
  match p with
  | VStr s => ret (splitext_str s)
  | _ => raise TypeError [Lit "expected str, bytes or os.PathLike object, not ";
                          Lit (type_name p)]
  end.

(** ** The parsers *)

(** [d[k] = v] for each pair in order: a later pair with the same key
    overwrites an earlier one, as [dict(pairs)] and a dict comprehension
    do. *)
Definition dict_of {A} (f : A -> pyval) (items : list (string * A)) : gmap string pyval :=
  fold_left (fun d kv => <[fst kv := f (snd kv)]> d) items ∅.

Section Parsers.
Context (w : World).

Definition parse_toml_file (file_path : pyval) : M pyval :=
  emit (Invoke Toml file_path) ;;;
  try_except
    (emit (FileIO Toml file_path) ;;; lift (tomllib_load w file_path))
    [([TOMLDecodeError; FileNotFoundError],
      fun e => raise ConfigParseError (Lit "Failed to parse TOML file: " :: exn_msg e))].

Definition parse_json_file (file_path : pyval) : M pyval :=
  emit (Invoke Json file_path) ;;;
  try_except
    (emit (FileIO Json file_path) ;;; lift (json_load w file_path))
    [([JSONDecodeError; FileNotFoundError],
      fun e => raise ConfigParseError (Lit "Failed to parse JSON file: " :: exn_msg e))].

Definition parse_yaml_file (file_path : pyval) : M pyval :=
  emit (Invoke Yaml file_path) ;;;
  try_except
    (emit (FileIO Yaml file_path) ;;; lift (yaml_safe_load w file_path))
    [([YAMLError; FileNotFoundError],
      fun e => raise ConfigParseError (Lit "Failed to parse YAML file: " :: exn_msg e))].

Definition parse_ini_file (file_path : pyval) : M pyval :=
  emit (Invoke Ini file_path) ;;;
  try_except
    (emit (FileIO Ini file_path) ;;;
     sections <- lift (configparser_read w file_path) ;;
     let config_dict := dict_of (fun items => VDict (dict_of VStr items)) sections in
     ret (VDict config_dict))
    [([ConfigparserError; FileNotFoundError],
      fun e => raise ValueError
                 ([Lit "Failed to parse INI file '"; Fmt file_path; Lit "': "]
                    ++ exn_msg e))].

(** The inner function of [parse_xml_file]. *)
Fixpoint xml_to_dict (element : Element) : pyval :=
  match element with
  | Elem _ txt [] =>
      match txt with Some s => VStr s | None => VNone end
  | Elem _ _ cs =>
      VDict (fold_left (fun result child => <[tag child := xml_to_dict child]> result)
                       cs ∅)
  end.

Definition parse_xml_file (file_path : pyval) : M pyval :=
  emit (Invoke Xml file_path) ;;;
  try_except
    (emit (FileIO Xml file_path) ;;;
     root <- lift (ET_parse w file_path) ;;
     ret (xml_to_dict root))
    [([XMLParseError; FileNotFoundError],
      fun e => raise ConfigParseError (Lit "Failed to parse XML file: " :: exn_msg e))].

Definition parse_env_file (file_path : pyval) : M pyval :=
  emit (Invoke Env file_path) ;;;
  emit (FileIO Env file_path) ;;;
  config <- lift (dotenv_values w file_path) ;;
  ret config.

(** [key, value = parts] *)
Definition unpack2 (parts : list string) : M (string * string) :=
  match parts with
  | [key; value] => ret (key, value)
  | [] | [_] =>
      raise ValueError [Lit "not enough values to unpack (expected 2, got ";
                        Fmt (VInt (Z.of_nat (length parts))); Lit ")"]
  | _ => raise ValueError [Lit "too many values to unpack (expected 2)"]
  end.

(** One turn of the [for line in file] loop of [parse_properties_file]. *)
Definition properties_line (config_dict : gmap string pyval) (line : string)
  : M (gmap string pyval) :=
  let line := strip line in
  if negb (truthy (VStr line)) || startswith "#" line || startswith "!" line
  then ret config_dict
  else
    let parts :=
      if contains "=" line then Some (split "=" (Some 1%nat) line)
      else if contains ":" line then Some (split ":" (Some 1%nat) line)
      else None in
    match parts with
    | None => ret config_dict
    | Some parts =>
        kv <- unpack2 parts ;;
        ret (<[strip (fst kv) := VStr (strip (snd kv))]> config_dict)
    end.

Fixpoint properties_loop (config_dict : gmap string pyval) (lines : list string)
  : M (gmap string pyval) :=
  match lines with
  | [] => ret config_dict
  | line :: rest =>
      config_dict <- properties_line config_dict line ;;
      properties_loop config_dict rest
  end.

Definition parse_properties_file (file_path : pyval) : M pyval :=
  emit (Invoke Properties file_path) ;;;
  let config_dict : gmap string pyval := ∅ in
  try_except
    (emit (FileIO Properties file_path) ;;;
     lines <- lift (open_lines w file_path) ;;
     config_dict <- properties_loop config_dict lines ;;
     ret (VDict config_dict))
    [([FileNotFoundError],
      fun _ => raise ConfigParseError [Lit "File not found: "; Fmt file_path]);
     ([OSError],
      fun e => raise ConfigParseError (Lit "IO error while reading file: " :: exn_msg e));
     ([Exception],
      fun e => raise ConfigParseError
                 (Lit "Failed to parse properties file: " :: exn_msg e))].

(** ** The dispatcher *)

Definition _load_config (file_path file_type : pyval) : M pyval :=
  try_except
    (file_extension <-
       (if truthy file_type then ret file_type
        else parts <- splitext file_path ;; ret (VStr (snd parts))) ;;
     debug [Lit "Loading '"; Fmt file_extension; Lit "' file '"; Fmt file_path;
            Lit "'."] ;;;
     if eq_str file_extension ".toml" then parse_toml_file file_path
     else if eq_str file_extension ".json" then parse_json_file file_path
     else if eq_str file_extension ".yaml" || eq_str file_extension ".yml"
          then parse_yaml_file file_path
     else if eq_str file_extension ".ini" then parse_ini_file file_path
     else if eq_str file_extension ".xml" then parse_xml_file file_path
     else if eq_str file_extension ".properties" then parse_properties_file file_path
     else if eq_str file_extension ".env" then parse_env_file file_path
     else if eq_str file_extension ".config" then
       raise ConfigParseError
         [Lit "Must specify file extension to parse as for '.config' file '";
          Fmt file_path; Lit "'."]
     else
       raise ConfigParseError
         [Lit "Invalid file extension: "; Fmt file_path;
          Lit ". Expected a '.toml', '.json', '.yaml', '.ini', '.xml', '.properties', '.env', or '.config' file."])
    [([Exception],
      fun e => log_exception [Lit "Could not load configuration."] ;;; reraise e)].

(** A call [self._load_config(args)]: Python binds the positional
    arguments to [file_path] and [file_type], neither of which has a
    default, and raises [TypeError] when their number is not two. *)
Definition call__load_config (args : list pyval) : M pyval :=
  match args with
  | [file_path; file_type] => _load_config file_path file_type
  | [] =>
      raise TypeError
        [Lit "Config._load_config() missing 2 required positional arguments: 'file_path' and 'file_type'"]
  | [_] =>
      raise TypeError
        [Lit "Config._load_config() missing 1 required positional argument: 'file_type'"]
  | _ =>
      raise TypeError
        [Lit "Config._load_config() takes 3 positional arguments but ";
         Fmt (VInt (Z.of_nat (S (length args)))); Lit " were given"]
  end.
End Parsers.

(** ** Objects and attributes *)

(** [super(Config, cls).__new__(cls)]: a fresh object with no attribute. *)
Definition alloc : M nat :=
  fun st => (Ok (length (heap st)),
             mk_proc (heap st ++ [mk_obj None None]) (_instance st) (trace st)).

(** [cls._instance] and [cls._instance = self] *)
Definition get__instance : M (option nat) := fun st => (Ok (_instance st), st).

Definition set__instance (self : nat) : M unit :=
  fun st => (Ok tt, mk_proc (heap st) (Some self) (trace st)).

Definition update (self : nat) (f : Obj -> Obj) : M unit :=
  fun st => (Ok tt, mk_proc (alter f self (heap st)) (_instance st) (trace st)).

(** [self._config = v] and [self._logging_config = v] *)
Definition set__config (self : nat) (v : pyval) : M unit :=
  update self (fun o => mk_obj (Some v) (_logging_config o)).

Definition set__logging_config (self : nat) (v : pyval) : M unit :=
  update self (fun o => mk_obj (_config o) (Some v)).

(** Reading an attribute that was never assigned is an [AttributeError]. *)
Definition getattr (self : nat) (name : string) (field : Obj -> option pyval) : M pyval :=
  fun st => match heap st !! self ≫= field with
            | Some v => (Ok v, st)
            | None =>
                (Err (mk_exn AttributeError
                        [Lit "'Config' object has no attribute '"; Lit name; Lit "'"]), st)
            end.

Definition get__config (self : nat) : M pyval := getattr self "_config" _config.

Definition get__logging_config (self : nat) : M pyval :=
  getattr self "_logging_config" _logging_config.

(** A method that only dictionaries have, called on [v]. *)
Definition no_attribute {A} (v : pyval) (name : string) : M A :=
  raise AttributeError
    [Lit "'"; Lit (type_name v); Lit "' object has no attribute '"; Lit name; Lit "'"].

(** [value.get(key, default)] *)
Definition dict_get (value : pyval) (key : string) (dflt : pyval) : M pyval :=
  match value with
  | VDict d => ret (default dflt (d !! key))
  | _ => no_attribute value "get"
  end.

(** [key.split('.')] *)
Definition split_key (key : pyval) : M (list string) :=
  match key with
  | VStr s => ret (split "." None s)
  | _ => no_attribute key "split"
  end.

(** ** [Config.get] *)

(** The [for key in keys] loop.  It ends [inl default] when the body
    returns from [get], and [inr (key, value)] with the loop variables when
    the keys are used up. *)
Fixpoint get_loop (keys : list string) (key value dflt : pyval)
  : M (pyval + pyval * pyval) :=
  match keys with
  | [] => ret (inr (key, value))
  | k :: rest =>
      value <- dict_get value k dflt ;;
      if is_None value then
        warn [Lit "No value found for ["; Fmt (VStr k); Lit "], using default."] ;;;
        ret (inl dflt)
      else get_loop rest (VStr k) value dflt
  end.

Definition get (self : nat) (key dflt : pyval) : M pyval :=
  value <- get__config self ;;
  r <- (if truthy key then
          keys <- split_key key ;;
          get_loop keys key value dflt
        else ret (inr (key, value))) ;;
  match r with
  | inl v => ret v
  | inr (key, value) =>
      debug [Lit "Value ["; Fmt value; Lit "] found for key ["; Fmt key; Lit "]."] ;;;
      ret value
  end.

(** ** Construction and the logging configuration *)

Section Facade.
Context (w : World).

(** [logging.config.dictConfig(cfg)] *)
Definition apply_dictConfig (cfg : pyval) : M unit :=
  emit (DictConfig cfg) ;;;
  match dictConfig w cfg with
  | None => ret tt
  | Some e => reraise e
  end.

Definition _setup (self : nat)
    (config_file_path config_file_type : pyval)
    (logging_config_file_path logging_config_file_type : pyval) : M unit :=
  cfg <- call__load_config w [config_file_path; config_file_type] ;;
  set__config self cfg ;;;
  lcfg <- (if truthy logging_config_file_path
           then call__load_config w [logging_config_file_path; logging_config_file_type]
           else ret VNone) ;;
  set__logging_config self lcfg ;;;
  lcfg <- get__logging_config self ;;
  if truthy lcfg then apply_dictConfig lcfg else ret tt.

(** [Config(...)]: what [__new__] returns is [cls._instance]. *)
Definition __new__
    (config_file_path config_file_type : pyval)
    (logging_config_file_path logging_config_file_type : pyval) : M (option nat) :=
  inst <- get__instance ;;
  (match inst with
   | None =>
       self <- alloc ;;
       set__instance self ;;;
       _setup self config_file_path config_file_type
              logging_config_file_path logging_config_file_type
   | Some _ => ret tt
   end) ;;;
  get__instance.

Definition load_logging_config (self : nat) (input : pyval) : M unit :=
  (match input with
   | VDict _ =>
       set__logging_config self input ;;;
       debug [Lit "Loaded logging configuration from dictionary."]
   | VStr _ =>
       cfg <- call__load_config w [input] ;;
       set__logging_config self cfg ;;;
       debug [Lit "Loaded logging configuration from filepath '"; Fmt input; Lit "'."]
   | _ =>
       raise TypeError
         [Lit "Expected type 'dict' or 'str' for input, got "; Lit (type_repr input)]
   end) ;;;
  lcfg <- get__logging_config self ;;
  if truthy lcfg then apply_dictConfig lcfg else ret tt.
End Facade.

(** The start of a process: no object, [Config._instance = None]. *)
Definition initial : Proc := mk_proc [] None [].

(** A process whose only [Config] object holds [tree] as its [_config]. *)
Definition loaded (tree : pyval) : Proc :=
  mk_proc [mk_obj (Some tree) (Some VNone)] (Some 0%nat) [].

(** ** Notions the statements use *)

Definition add_trace (st : Proc) (evs : list event) : Proc :=
  mk_proc (heap st) (_instance st) (trace st ++ evs).

(** A computation that neither reads nor writes the objects: on every state
    it gives the result it gives on [initial] and only extends the trace. *)
Definition oblivious {A} (m : M A) : Prop :=
  forall st, m st = (fst (m initial), add_trace st (trace (snd (m initial)))).

(** Two states with the same objects, up to their attributes, and the same
    [Config._instance]. *)
Definition same_shape (st st' : Proc) : Prop :=
  length (heap st') = length (heap st) /\ _instance st' = _instance st.

(** A computation that allocates nothing and leaves [Config._instance]. *)
Definition keeps_shape {A} (m : M A) : Prop :=
  forall st, same_shape st (snd (m st)).

(** The singleton invariant: no object while [Config._instance] is [None],
    and one object, the instance, from then on. *)
Definition singleton (st : Proc) : Prop :=
  match _instance st with
  | None => heap st = []
  | Some self => self = 0%nat /\ length (heap st) = 1%nat
  end.

(** The events that show a parser at work. *)
Definition parser_event (ev : event) : bool :=
  match ev with
  | Invoke _ _ | FileIO _ _ => true
  | _ => false
  end.

Definition parser_events (st : Proc) : list event :=
  List.filter parser_event (trace st).

(** The extension table of the dispatcher. *)
Definition supported_extensions : list string :=
  [".toml"; ".json"; ".yaml"; ".yml"; ".ini"; ".xml"; ".properties"; ".env"].

(** The extension the dispatcher works with: the override when there is
    one, else what [os.path.splitext] finds in the path. *)
Definition extension_of (file_path : string) (file_type : pyval) : pyval :=
  if truthy file_type then file_type else VStr (snd (splitext_str file_path)).

(** Where a key path leads in a tree, by plain descent through the
    mappings: [None] when a segment is absent or the value met is not a
    mapping. *)
Fixpoint resolve (value : pyval) (segments : list string) : option pyval :=
  match segments with
  | [] => Some value
  | k :: rest =>
      match value with
      | VDict d => d !! k ≫= fun v => resolve v rest
      | _ => None
      end
  end.

(** The properties rules in the words of the specification: what a line
    contributes, if anything. *)
Fixpoint before (c : ascii) (s : string) : string :=
  match s with
  | EmptyString => EmptyString
  | String d r => if Ascii.eqb d c then EmptyString else String d (before c r)
  end.

Fixpoint after (c : ascii) (s : string) : string :=
  match s with
  | EmptyString => EmptyString
  | String d r => if Ascii.eqb d c then r else after c r
  end.

Definition spec_entry (line : string) : option (string * string) :=
  let t := strip line in
  if String.eqb t EmptyString || startswith "#" t || startswith "!" t then None
  else if contains "=" t then Some (strip (before "=" t), strip (after "=" t))
  else if contains ":" t then Some (strip (before ":" t), strip (after ":" t))
  else None.

(** The last element of [l] that [f] sends to [k]. *)
Definition last_with {A} (f : A -> string) (k : string) (l : list A) : option A :=
  list.last (filter (fun x => f x = k) l).

(** Reading a text file line by line: universal newlines, then lines that
    keep their line feed. *)
Fixpoint universal_newlines (s : string) : string :=
  match s with
  | EmptyString => EmptyString
  | String "013" (String "010" r) => String "010" (universal_newlines r)
  | String "013" r => String "010" (universal_newlines r)
  | String c r => String c (universal_newlines r)
  end.

Fixpoint keepends (s : string) : list string :=
  match s with
  | EmptyString => []
  | String c r =>
      if Ascii.eqb c "010" then String c EmptyString :: keepends r
      else match keepends r with
           | [] => [String c EmptyString]
           | hd :: tl => String c hd :: tl
           end
  end.

Definition iter_lines (content : string) : list string :=
  keepends (universal_newlines content).

(** A run of constructor calls whose exceptions the caller swallows. *)
Definition ctor_args : Type := pyval * pyval * pyval * pyval.

Definition construct (w : World) (a : ctor_args) : M (option nat) :=
  let '(p, t, lp, lt) := a in __new__ w p t lp lt.

Fixpoint run_calls (w : World) (calls : list ctor_args) (st : Proc) : Proc :=
  match calls with
  | [] => st
  | a :: rest => run_calls w rest (snd (construct w a st))
  end.

(** ** Concrete inputs *)

Definition nl : string := String "010" EmptyString.

(** [{"a": {"b": 5}}] *)
Definition tree_ab : pyval := VDict {[ "a" := VDict {[ "b" := VInt 5 ]} ]}.

(** [{"a": 5}] *)
Definition tree_a5 : pyval := VDict {[ "a" := VInt 5 ]}.

(** [{"a": {"b": None}}] *)
Definition tree_null : pyval := VDict {[ "a" := VDict {[ "b" := VNone ]} ]}.

Definition properties_content : string :=
  "# comment" ++ nl ++ "key1=val1" ++ nl ++ "key2:val2" ++ nl ++ "badline" ++ nl.

(** [<root><a>1</a><a>2</a></root>] *)
Definition xml_siblings : Element :=
  Elem "root" None [Elem "a" (Some "1") []; Elem "a" (Some "2") []].

Definition no_such_file : exn :=
  mk_exn FileNotFoundError [Lit "[Errno 2] No such file or directory"].

(** A file system with no file in it.  [config.read] and [dotenv_values]
    pass over a missing file. *)
Definition bare_world : World :=
  {| tomllib_load := fun _ => Err no_such_file;
     json_load := fun _ => Err no_such_file;
     yaml_safe_load := fun _ => Err no_such_file;
     configparser_read := fun _ => Ok [];
     ET_parse := fun _ => Err no_such_file;
     dotenv_values := fun _ => Ok (VDict ∅);
     open_lines := fun _ => Err no_such_file;
     dictConfig := fun _ => None |}.

(** [a.json] holds [{"k": 1}] and [b.json] holds [{"k": 2}]. *)
Definition two_json_world : World :=
  {| tomllib_load := tomllib_load bare_world;
     json_load := fun p =>
       if eq_str p "a.json" then Ok (VDict {[ "k" := VInt 1 ]})
       else if eq_str p "b.json" then Ok (VDict {[ "k" := VInt 2 ]})
       else Err no_such_file;
     yaml_safe_load := yaml_safe_load bare_world;
     configparser_read := configparser_read bare_world;
     ET_parse := ET_parse bare_world;
     dotenv_values := dotenv_values bare_world;
     open_lines := open_lines bare_world;
     dictConfig := dictConfig bare_world |}.

(** An INI file whose first line comes before any section header. *)
Definition bad_ini_world : World :=
  {| tomllib_load := tomllib_load bare_world;
     json_load := json_load bare_world;
     yaml_safe_load := yaml_safe_load bare_world;
     configparser_read := fun _ =>
       Err (mk_exn ConfigparserError [Lit "File contains no section headers."]);
     ET_parse := ET_parse bare_world;
     dotenv_values := dotenv_values bare_world;
     open_lines := open_lines bare_world;
     dictConfig := dictConfig bare_world |}.

(** Every text file reads as [properties_content]. *)
Definition properties_world : World :=
  {| tomllib_load := tomllib_load bare_world;
     json_load := json_load bare_world;
     yaml_safe_load := yaml_safe_load bare_world;
     configparser_read := configparser_read bare_world;
     ET_parse := ET_parse bare_world;
     dotenv_values := dotenv_values bare_world;
     open_lines := fun _ => Ok (iter_lines properties_content);
     dictConfig := dictConfig bare_world |}.

(** ** Further notions *)

(** The extension table of the dispatcher as a function: the parser an
    extension selects. *)
Definition parser_for (ext : string) : option parser :=
  if String.eqb ext ".toml" then Some Toml
  else if String.eqb ext ".json" then Some Json
  else if String.eqb ext ".yaml" || String.eqb ext ".yml" then Some Yaml
  else if String.eqb ext ".ini" then Some Ini
  else if String.eqb ext ".xml" then Some Xml
  else if String.eqb ext ".properties" then Some Properties
  else if String.eqb ext ".env" then Some Env
  else None.

(** The static method of [Config] that stands behind a parser. *)
Definition run_parser (w : World) (p : parser) : pyval -> M pyval :=
  match p with
  | Toml => parse_toml_file w
  | Json => parse_json_file w
  | Yaml => parse_yaml_file w
  | Ini => parse_ini_file w
  | Xml => parse_xml_file w
  | Properties => parse_properties_file w
  | Env => parse_env_file w
  end.

(** The line [LOGGER.exception] leaves when a load fails. *)
Definition load_failure_line : event :=
  Log ERROR [Lit "Could not load configuration."].

Definition is_error_line (ev : event) : bool :=
  match ev with Log ERROR _ => true | _ => false end.

(** A computation that changes no object and logs nothing at level
    ERROR. *)
Definition quiet {A} (m : M A) : Prop :=
  forall st, exists evs,
    snd (m st) = add_trace st evs /\ List.filter is_error_line evs = [].

Definition is_dictConfig (ev : event) : bool :=
  match ev with DictConfig _ => true | _ => false end.

(** The values [xml_to_dict] can give: [None], a string, or a mapping of
    such values. *)
Inductive xml_value : pyval -> Prop :=
| xml_none : xml_value VNone
| xml_str s : xml_value (VStr s)
| xml_dict (d : gmap string pyval) :
    (forall k v, d !! k = Some v -> xml_value v) -> xml_value (VDict d).

(** A line the properties loop passes over. *)
Definition skipped (line : string) : bool :=
  let t := strip line in
  negb (truthy (VStr t)) || startswith "#" t || startswith "!" t
  || negb (contains "=" t || contains ":" t).

(** ** The earlier loader, [pytomfig/main.py]

    Its [Config] has the same shape with the attributes named [config] and
    [logging_config]; they take the two slots of an object here.  Only TOML
    is read; the other known extensions are placeholders that return
    [None]. *)
Module Pytomfig.

(** [json.load(file_path)] given the path itself: [json.load] calls
    [fp.read()] on its argument. *)
Definition json_load_of_path (file_path : pyval) : M pyval :=
  no_attribute file_path "read".

Definition _load_config (w : World) (file_path : pyval) : M pyval :=
  try_except
    (parts <- splitext file_path ;;
     let file_extension := snd parts in
     debug [Lit "Loading "; Fmt (VStr file_extension); Lit " file "; Fmt file_path;
            Lit "."] ;;;
     if String.eqb file_extension ".toml" then
       emit (FileIO Toml file_path) ;;; lift (tomllib_load w file_path)
     else if String.eqb file_extension ".json" then json_load_of_path file_path
     else if String.eqb file_extension ".yaml" || String.eqb file_extension ".yml"
          then ret VNone
     else if String.eqb file_extension ".ini" then ret VNone
     else if String.eqb file_extension ".xml" then ret VNone
     else if String.eqb file_extension ".properties" then ret VNone
     else if String.eqb file_extension ".env" then ret VNone
     else if String.eqb file_extension ".sh" || String.eqb file_extension ".bash"
          then ret VNone
     else if String.eqb file_extension ".md" then ret VNone
     else if String.eqb file_extension ".config" then ret VNone
     else
       raise ValueError
         [Lit "Invalid file extension: "; Fmt file_path;
          Lit ". Expected a '.toml', '.json', or '.yaml' file."])
    [([Exception],
      fun e => log_exception [Lit "Could not load configuration."] ;;; reraise e)].

Definition _setup (w : World) (self : nat)
    (config_file_path logging_config_file_path : pyval) : M unit :=
  cfg <- _load_config w config_file_path ;;
  set__config self cfg ;;;
  lcfg <- (if truthy logging_config_file_path
           then _load_config w logging_config_file_path
           else ret VNone) ;;
  set__logging_config self lcfg.

Definition __new__ (w : World)
    (config_file_path logging_config_file_path : pyval) : M (option nat) :=
  inst <- get__instance ;;
  (match inst with
   | None =>
       self <- alloc ;;
       set__instance self ;;;
       _setup w self config_file_path logging_config_file_path
   | Some _ => ret tt
   end) ;;;
  get__instance.

Definition get (self : nat) (key dflt : pyval) : M pyval :=
  keys <- split_key key ;;
  value <- getattr self "config" _config ;;
  r <- get_loop keys key value dflt ;;
  match r with
  | inl v => ret v
  | inr (key, value) =>
      debug [Lit "Value ["; Fmt value; Lit "] found for key ["; Fmt key; Lit "]."] ;;;
      ret value
  end.

End Pytomfig.

(** The extensions [pytomfig] knows and does not read. *)
Definition placeholder_extensions : list string :=
  [".yaml"; ".yml"; ".ini"; ".xml"; ".properties"; ".env"; ".sh"; ".bash"; ".md";
   ".config"].

(** The class of the exception a result carries, if it is one. *)
Definition raised_class {A} (r : res A) : option exn_class :=
  match r with
  | Ok _ => None
  | Err e => Some (exn_cls e)
  end.

(** What the library behind a parser answers for a path, as the value the
    parser would return: the loaded document for TOML, JSON and YAML, and
    the conversion of the root element for XML. *)
Definition library_result (w : World) (p : parser) (file_path : pyval) : option (res pyval) :=
  match p with
  | Toml => Some (tomllib_load w file_path)
  | Json => Some (json_load w file_path)
  | Yaml => Some (yaml_safe_load w file_path)
  | Xml => Some (match ET_parse w file_path with
                 | Ok root => Ok (xml_to_dict root)
                 | Err e => Err e
                 end)
  | _ => None
  end.

(** The error class of its library that each of these parsers catches,
    next to [FileNotFoundError], and the text it puts before the cause. *)
Definition decode_error (p : parser) : exn_class :=
  match p with
  | Toml => TOMLDecodeError
  | Json => JSONDecodeError
  | Yaml => YAMLError
  | Xml => XMLParseError
  | _ => Exception
  end.

Definition failure_prefix (p : parser) : string :=
  match p with
  | Toml => "Failed to parse TOML file: "
  | Json => "Failed to parse JSON file: "
  | Yaml => "Failed to parse YAML file: "
  | Xml => "Failed to parse XML file: "
  | _ => EmptyString
  end.

(** A JSON file that exists and cannot be read. *)
Definition locked_json_world : World :=
  {| tomllib_load := tomllib_load bare_world;
     json_load := fun _ => Err (mk_exn PermissionError [Lit "[Errno 13] Permission denied"]);
     yaml_safe_load := yaml_safe_load bare_world;
     configparser_read := configparser_read bare_world;
     ET_parse := ET_parse bare_world;
     dotenv_values := dotenv_values bare_world;
     open_lines := open_lines bare_world;
     dictConfig := dictConfig bare_world |}.

(** [<cfg><db><host>h</host><port>1</port></db><name>n</name></cfg>] *)
Definition xml_nested : Element :=
  Elem "cfg" None
    [Elem "db" None [Elem "host" (Some "h") []; Elem "port" (Some "1") []];
     Elem "name" (Some "n") []].

(** An INI file with the sections [db] and [log]. *)
Definition ini_world : World :=
  {| tomllib_load := tomllib_load bare_world;
     json_load := json_load bare_world;
     yaml_safe_load := yaml_safe_load bare_world;
     configparser_read := fun _ =>
       Ok [("db", [("host", "h"); ("port", "5432")]); ("log", [("level", "INFO")])];
     ET_parse := ET_parse bare_world;
     dotenv_values := dotenv_values bare_world;
     open_lines := open_lines bare_world;
     dictConfig := dictConfig bare_world |}.

(** [app.json] holds [{"k": 1}], [log.json] holds [{"version": 1}], and
    [dictConfig] accepts what it is given. *)
Definition logging_world : World :=
  {| tomllib_load := tomllib_load bare_world;
     json_load := fun p =>
       if eq_str p "app.json" then Ok (VDict {[ "k" := VInt 1 ]})
       else if eq_str p "log.json" then Ok (VDict {[ "version" := VInt 1 ]})
       else Err no_such_file;
     yaml_safe_load := yaml_safe_load bare_world;
     configparser_read := configparser_read bare_world;
     ET_parse := ET_parse bare_world;
     dotenv_values := dotenv_values bare_world;
     open_lines := open_lines bare_world;
     dictConfig := dictConfig bare_world |}.

(** The same files, with a [dictConfig] that rejects every configuration. *)
Definition strict_logging_world : World :=
  {| tomllib_load := tomllib_load bare_world;
     json_load := json_load logging_world;
     yaml_safe_load := yaml_safe_load bare_world;
     configparser_read := configparser_read bare_world;
     ET_parse := ET_parse bare_world;
     dotenv_values := dotenv_values bare_world;
     open_lines := open_lines bare_world;
     dictConfig := fun _ =>
       Some (mk_exn ValueError [Lit "dictionary doesn't specify a version"]) |}.

(** What the logging step of a construction ends with: the exception of the
    logging load, or of [dictConfig] on a loaded configuration that is not
    empty, or nothing. *)
Definition logging_step_failure (w : World) (lp lt : pyval) : option exn :=
  match fst (_load_config w lp lt initial) with
  | Err e => Some e
  | Ok ltree => if truthy ltree then dictConfig w ltree else None
  end.

(** [conf.toml] holds [{"a": {"b": 5}}]. *)
Definition toml_world : World :=
  {| tomllib_load := fun p =>
       if eq_str p "conf.toml" then Ok tree_ab else Err no_such_file;
     json_load := json_load bare_world;
     yaml_safe_load := yaml_safe_load bare_world;
     configparser_read := configparser_read bare_world;
     ET_parse := ET_parse bare_world;
     dotenv_values := dotenv_values bare_world;
     open_lines := open_lines bare_world;
     dictConfig := dictConfig bare_world |}.

(** * Properties *)

(** ** The monad and computations that leave the objects alone *)

Lemma add_trace_nil st : add_trace st [] = st.
Proof. destruct st; unfold add_trace; simpl. by rewrite app_nil_r. Qed.

Lemma add_trace_app st evs evs' :
  add_trace (add_trace st evs) evs' = add_trace st (evs ++ evs').
Proof. unfold add_trace; simpl. by rewrite app_assoc. Qed.

Lemma oblivious_iff {A} (m : M A) :
  oblivious m <-> exists r evs, forall st, m st = (r, add_trace st evs).
Proof.
  split.
  - intros H. eauto.
  - intros (r & evs & H) st. rewrite (H initial), (H st). reflexivity.
Qed.

Lemma oblivious_ret {A} (a : A) : oblivious (ret a).
Proof. apply oblivious_iff. exists (Ok a), []. intros st. by rewrite add_trace_nil. Qed.

Lemma oblivious_raise {A} c m : oblivious (@raise A c m).
Proof.
  apply oblivious_iff. exists (Err (mk_exn c m)), []. intros st.
  by rewrite add_trace_nil.
Qed.

Lemma oblivious_reraise {A} e : oblivious (@reraise A e).
Proof. apply oblivious_iff. exists (Err e), []. intros st. by rewrite add_trace_nil. Qed.

Lemma oblivious_lift {A} (r : res A) : oblivious (lift r).
Proof. apply oblivious_iff. exists r, []. intros st. by rewrite add_trace_nil. Qed.

Lemma oblivious_emit ev : oblivious (emit ev).
Proof. apply oblivious_iff. exists (Ok tt), [ev]. reflexivity. Qed.

Lemma oblivious_bind {A B} (m : M A) (k : A -> M B) :
  oblivious m -> (forall a, oblivious (k a)) -> oblivious (bind m k).
Proof.
  intros Hm Hk. apply oblivious_iff in Hm as (r & evs & Hm).
  apply oblivious_iff. destruct r as [a|e].
  - destruct (proj1 (oblivious_iff _) (Hk a)) as (r' & evs' & Hk').
    exists r', (evs ++ evs'). intros st. unfold bind.
    by rewrite Hm, Hk', add_trace_app.
  - exists (Err e), evs. intros st. unfold bind. by rewrite Hm.
Qed.

Lemma oblivious_handle {A} (hs : list (list exn_class * (exn -> M A))) e :
  Forall (fun ch => forall e', oblivious (snd ch e')) hs -> oblivious (handle hs e).
Proof.
  induction 1 as [|[cs h] hs Hh _ IH]; simpl.
  - apply oblivious_iff. exists (Err e), []. intros st. by rewrite add_trace_nil.
  - destruct (caught_by e cs); [apply Hh | apply IH].
Qed.

Lemma oblivious_try_except {A} (m : M A) hs :
  oblivious m ->
  Forall (fun ch => forall e', oblivious (snd ch e')) hs ->
  oblivious (try_except m hs).
Proof.
  intros Hm Hhs. apply oblivious_iff in Hm as (r & evs & Hm).
  apply oblivious_iff. destruct r as [a|e].
  - exists (Ok a), evs. intros st. unfold try_except. by rewrite Hm.
  - destruct (proj1 (oblivious_iff _) (oblivious_handle hs e Hhs)) as (r' & evs' & Hh).
    exists r', (evs ++ evs'). intros st. unfold try_except.
    by rewrite Hm, Hh, add_trace_app.
Qed.

Create HintDb oblivious.
#[local] Hint Resolve oblivious_ret oblivious_raise oblivious_reraise oblivious_lift
  oblivious_emit : oblivious.

Ltac oblivious_step :=
  first
    [ apply oblivious_ret | apply oblivious_raise | apply oblivious_reraise
    | apply oblivious_lift | apply oblivious_emit
    | apply oblivious_bind; [| intros ?]
    | apply oblivious_try_except;
      [| repeat (first [apply Forall_nil | apply Forall_cons; [simpl; intros ? |]])]
    | match goal with
      | |- oblivious (if ?b then _ else _) => destruct b
      | |- oblivious (match ?x with _ => _ end) => destruct x
      end ].

Ltac oblivious_tac := repeat oblivious_step.

Lemma oblivious_fst {A} (m : M A) st st' : oblivious m -> fst (m st) = fst (m st').
Proof. intros H. by rewrite (H st), (H st'). Qed.

Lemma oblivious_heap {A} (m : M A) st :
  oblivious m -> heap (snd (m st)) = heap st /\ _instance (snd (m st)) = _instance st.
Proof. intros H. by rewrite (H st). Qed.

Lemma oblivious_trace {A} (m : M A) st :
  oblivious m -> trace (snd (m st)) = trace st ++ trace (snd (m initial)).
Proof. intros H. by rewrite (H st). Qed.

(** ** The string functions on examples *)

Example split_on_dots : split "." None "a..b" = ["a"; EmptyString; "b"].
Proof. reflexivity. Qed.

Example split_at_most_once : split "=" (Some 1%nat) "k=v=w" = ["k"; "v=w"].
Proof. reflexivity. Qed.

Example split_without_separator : split "." None "abc" = ["abc"].
Proof. reflexivity. Qed.

Example strip_both_ends : strip (String "009" " key " ++ nl) = "key".
Proof. reflexivity. Qed.

Example splitext_plain : splitext_str "conf/app.config" = ("conf/app", ".config").
Proof. reflexivity. Qed.

Example splitext_last_dot : splitext_str "dir/x.tar.gz" = ("dir/x.tar", ".gz").
Proof. reflexivity. Qed.

Example splitext_leading_dot : splitext_str "conf.d/.env" = ("conf.d/.env", EmptyString).
Proof. reflexivity. Qed.

Example iter_lines_properties :
  iter_lines properties_content
  = [("# comment" ++ nl)%string; ("key1=val1" ++ nl)%string;
     ("key2:val2" ++ nl)%string; ("badline" ++ nl)%string].
Proof. reflexivity. Qed.

(** ** [str.split] *)

Lemma split_not_nil sep n s : split sep n s <> [].
Proof.
  revert n. induction s as [|c r IH]; intros n; simpl; [done|].
  destruct (_ && _); [done|].
  destruct (split sep n r) eqn:E; [by apply IH in E | done].
Qed.

Lemma split_first sep s :
  contains sep s = true -> split sep (Some 1%nat) s = [before sep s; after sep s].
Proof.
  assert (Hnone : forall t, split sep (Some 0%nat) t = [t]).
  { induction t as [|c r IH]; simpl; [done|].
    rewrite andb_false_r. by rewrite IH. }
  induction s as [|c r IH]; simpl; [done|].
  destruct (Ascii.eqb c sep); simpl.
  - intros _. by rewrite Hnone.
  - intros H. by rewrite (IH H).
Qed.

(** ** [Config.get] *)

Lemma oblivious_dict_get value k dflt : oblivious (dict_get value k dflt).
Proof. unfold dict_get, no_attribute. oblivious_tac. Qed.

Lemma oblivious_get_loop keys key value dflt : oblivious (get_loop keys key value dflt).
Proof.
  revert key value. induction keys as [|k rest IH]; intros key value; simpl.
  - oblivious_tac.
  - apply oblivious_bind; [apply oblivious_dict_get|]. intros v.
    destruct (is_None v); [|apply IH]. unfold warn. oblivious_tac.
Qed.

(** What [get] does once [self._config] has been read. *)
Lemma get_unfold self key dflt st :
  get self key dflt st =
  match heap st !! self ≫= _config with
  | Some value =>
      bind (if truthy key
            then bind (split_key key) (fun keys => get_loop keys key value dflt)
            else ret (inr (key, value)))
           (fun r => match r with
                     | inl v => ret v
                     | inr (key, value) =>
                         bind (debug [Lit "Value ["; Fmt value;
                                      Lit "] found for key ["; Fmt key; Lit "]."])
                              (fun _ => ret value)
                     end) st
  | None =>
      (Err (mk_exn AttributeError
              [Lit "'Config' object has no attribute '"; Lit "_config"; Lit "'"]), st)
  end.
Proof.
  unfold get at 1, bind at 1, get__config, getattr.
  by destruct (heap st !! self ≫= _config).
Qed.

(** That remainder of [get] neither reads nor writes the objects. *)
Lemma oblivious_get_body key value dflt :
  oblivious
    (bind (if truthy key
           then bind (split_key key) (fun keys => get_loop keys key value dflt)
           else ret (inr (key, value)))
          (fun r => match r with
                    | inl v => ret v
                    | inr (key, value) =>
                        bind (debug [Lit "Value ["; Fmt value;
                                     Lit "] found for key ["; Fmt key; Lit "]."])
                             (fun _ => ret value)
                    end)).
Proof.
  unfold split_key, no_attribute, debug. apply oblivious_bind.
  - destruct (truthy key); [|oblivious_tac].
    apply oblivious_bind; [destruct key; oblivious_tac|].
    intros keys. apply oblivious_get_loop.
  - intros [v|[k v]]; oblivious_tac.
Qed.

(** The result of [get] depends on the state through [self._config] only. *)
Lemma get_frame self self' key dflt st st' :
  heap st !! self ≫= _config = heap st' !! self' ≫= _config ->
  fst (get self key dflt st) = fst (get self' key dflt st').
Proof.
  intros H. rewrite !get_unfold, H.
  destruct (heap st' !! self' ≫= _config) as [value|]; [|done].
  apply oblivious_fst, oblivious_get_body.
Qed.

(** An absent segment does not end the walk when the default is not
    [None]: the default takes the place of the value and the loop goes
    on. *)
Lemma get_loop_absent_goes_on (d : gmap string pyval) k rest key dflt st :
  d !! k = None -> dflt <> VNone ->
  get_loop (k :: rest) key (VDict d) dflt st = get_loop rest (VStr k) dflt dflt st.
Proof.
  intros Hk Hd. simpl. unfold bind, ret. rewrite Hk. simpl.
  destruct dflt; done.
Qed.

(** A stored value that is neither a mapping nor [None], met while
    segments remain, ends the lookup with an [AttributeError]. *)
Lemma get_loop_scalar_raises (d : gmap string pyval) k k' rest key v dflt st :
  d !! k = Some v -> v <> VNone -> (forall d', v <> VDict d') ->
  exists m, fst (get_loop (k :: k' :: rest) key (VDict d) dflt st)
            = Err (mk_exn AttributeError m).
Proof.
  intros Hk Hn Hd. simpl. unfold bind, ret. rewrite Hk. simpl.
  destruct v; try done; simpl; eauto.
  by destruct (Hd d0).
Qed.

Lemma get_loop_resolves_None keys key value dflt st :
  keys <> [] -> resolve value keys = Some VNone ->
  fst (get_loop keys key value dflt st) = Ok (inl dflt).
Proof.
  revert key value st. induction keys as [|k rest IH]; intros key value st Hne Hr; [done|].
  simpl in Hr. destruct value as [| | | | |d]; try done.
  destruct (d !! k) as [v|] eqn:Hk; [|done]. simpl in Hr.
  simpl. unfold bind at 1. simpl. rewrite Hk. simpl.
  destruct rest as [|k' rest'].
  - simpl in Hr. injection Hr as ->. reflexivity.
  - destruct v as [| | | | |d']; try done.
    apply IH; done.
Qed.

(** The part of [get] after [self._config] is read works on the value
    alone. *)
Lemma get_value self key dflt st value :
  heap st !! self ≫= _config = Some value ->
  fst (get self key dflt st) = fst (get 0 key dflt (loaded value)).
Proof. intros H. apply get_frame. by rewrite H. Qed.

(** C1: an absent segment does not end the lookup with the default: the
    default takes the place of the missing value and the walk goes on, so
    the call gives what it would give on the tree with the default stored
    under the absent segment.  On [{"a": {"b": 5}}] the lookups [get("a.b")]
    and [get("a.c", default=42)] return [5] and [42], but
    [get("x.y", default="none")] raises [AttributeError] instead of
    returning ["none"], and with a mapping as default the call returns a
    value found inside the default. *)
Theorem get_absent_segment_keeps_traversing :
  (forall self st (d : gmap string pyval) key k rest dflt,
      heap st !! self ≫= _config = Some (VDict d) ->
      key <> EmptyString ->
      split "." None key = k :: rest ->
      d !! k = None ->
      fst (get self (VStr key) dflt st)
      = fst (get 0 (VStr key) dflt (loaded (VDict (<[k := dflt]> d)))))
  /\ fst (get 0 (VStr "a.b") VNone (loaded tree_ab)) = Ok (VInt 5)
  /\ fst (get 0 (VStr "a.c") (VInt 42) (loaded tree_ab)) = Ok (VInt 42)
  /\ fst (get 0 (VStr "x.y") (VStr "none") (loaded tree_ab))
     = Err (mk_exn AttributeError
              [Lit "'"; Lit "str"; Lit "' object has no attribute '"; Lit "get"; Lit "'"])
  /\ fst (get 0 (VStr "x.b") (VDict {[ "b" := VInt 7 ]}) (loaded tree_ab))
     = Ok (VInt 7).
Proof.
  split; [|repeat split; vm_compute; reflexivity].
  intros self st d key k rest dflt Hcfg Hkey Hsplit Hk.
  rewrite (get_value self (VStr key) dflt st (VDict d) Hcfg).
  rewrite !get_unfold. simpl heap. simpl lookup. simpl mbind. cbv beta iota.
  rewrite (oblivious_fst _ (loaded (VDict d)) initial)
    by apply oblivious_get_body.
  rewrite (oblivious_fst _ (loaded (VDict (<[k:=dflt]> d))) initial)
    by apply oblivious_get_body.
  assert (Ht : truthy (VStr key) = true) by (destruct key; done).
  rewrite Ht. unfold split_key. unfold bind at 1 3. unfold bind at 1 2.
  unfold ret at 1 2. rewrite Hsplit. simpl. unfold bind at 1 3. simpl.
  by rewrite Hk, lookup_insert_eq.
Qed.

Lemma get_absent_segment_keeps_traversing_witness :
  fst (get 0 (VStr "x.y") (VStr "none") (loaded tree_ab))
  = fst (get 0 (VStr "x.y") (VStr "none")
           (loaded (VDict (<["x" := VStr "none"]> {[ "a" := VDict {[ "b" := VInt 5 ]} ]})))).
Proof.
  apply (proj1 get_absent_segment_keeps_traversing 0%nat (loaded tree_ab)
           {[ "a" := VDict {[ "b" := VInt 5 ]} ]} "x.y" "x" ["y"] (VStr "none"));
    first [reflexivity | discriminate].
Defined.

(** C2: a stored value that is neither a mapping nor [None], met while a
    segment of the key remains, makes [get] raise [AttributeError]; the
    default is not returned.  On [{"a": 5}] this is what
    [get("a.b", default=0)] does. *)
Theorem get_non_mapping_raises self st (d : gmap string pyval) key k k' rest v dflt :
  heap st !! self ≫= _config = Some (VDict d) ->
  split "." None key = k :: k' :: rest ->
  d !! k = Some v ->
  v <> VNone ->
  (forall d', v <> VDict d') ->
  fst (get self (VStr key) dflt st)
  = Err (mk_exn AttributeError
           [Lit "'"; Lit (type_name v); Lit "' object has no attribute '";
            Lit "get"; Lit "'"]).
Proof.
  intros Hcfg Hsplit Hk Hn Hd. rewrite get_unfold, Hcfg. simpl.
  destruct (negb (String.eqb key EmptyString)) eqn:Hkey.
  - unfold split_key. unfold bind at 1. unfold bind at 1. unfold ret at 1.
    rewrite Hsplit. simpl. unfold bind at 1. simpl. rewrite Hk. simpl.
    destruct v; try done. by destruct (Hd d0).
  - apply negb_false_iff, String.eqb_eq in Hkey. by subst key.
Qed.

Lemma get_non_mapping_raises_witness :
  fst (get 0 (VStr "a.b") (VInt 0) (loaded tree_a5))
  = Err (mk_exn AttributeError
           [Lit "'"; Lit "int"; Lit "' object has no attribute '"; Lit "get"; Lit "'"]).
Proof.
  apply (get_non_mapping_raises 0%nat (loaded tree_a5) {[ "a" := VInt 5 ]}
           "a.b" "a" "b" [] (VInt 5) (VInt 0)); try reflexivity; try discriminate.
Defined.

(** C9: when the dotted key leads, through mappings, to a stored [None],
    [get] returns the caller's default, whatever it is; with the default
    left at [None] it returns [None], as for a missing key. *)
Theorem get_stored_None_returns_default self key dflt tree st :
  heap st !! self ≫= _config = Some tree ->
  key <> EmptyString ->
  resolve tree (split "." None key) = Some VNone ->
  fst (get self (VStr key) dflt st) = Ok dflt.
Proof.
  intros Hcfg Hkey Hres. rewrite get_unfold, Hcfg.
  assert (Ht : truthy (VStr key) = true).
  { simpl. destruct key; [done | reflexivity]. }
  rewrite Ht. unfold split_key.
  pose proof (get_loop_resolves_None (split "." None key) (VStr key) tree dflt st
                (split_not_nil _ _ _) Hres) as Hloop.
  unfold bind, ret. simpl.
  destruct (get_loop _ _ _ _ st) as [[r|e] st'] eqn:E; simpl in Hloop; [|done].
  by injection Hloop as ->.
Qed.

Lemma get_stored_None_returns_default_witness :
  fst (get 0 (VStr "a.b") (VInt 42) (loaded tree_null)) = Ok (VInt 42).
Proof.
  apply get_stored_None_returns_default with (tree := tree_null).
  - reflexivity.
  - discriminate.
  - vm_compute; reflexivity.
Defined.

(** ** [load_logging_config] *)

Lemma alter_keeps_config (f : Obj -> Obj) self (h : list Obj) i :
  (forall o, _config (f o) = _config o) ->
  alter f self h !! i ≫= _config = h !! i ≫= _config.
Proof.
  intros Hf. destruct (decide (self = i)) as [->|Hne].
  - rewrite list_lookup_alter_eq. destruct (h !! i); simpl; [by rewrite Hf | done].
  - by rewrite list_lookup_alter_ne.
Qed.

(** With a mapping, the state after the call: the object's
    [_logging_config] assigned, one debug line, and [dictConfig] applied
    when the mapping is not empty. *)
Lemma load_logging_config_dict_state w self d st :
  exists evs,
    snd (load_logging_config w self (VDict d) st)
    = mk_proc (alter (fun o => mk_obj (_config o) (Some (VDict d))) self (heap st))
              (_instance st) (trace st ++ evs)
    /\ List.filter parser_event evs = [].
Proof.
  unfold load_logging_config, set__logging_config, update, debug, emit,
    get__logging_config, getattr, apply_dictConfig, bind, ret, reraise. simpl.
  destruct (alter _ self (heap st) !! self ≫= _logging_config) as [lcfg|]; simpl.
  - destruct (truthy lcfg); simpl.
    + destruct (dictConfig w lcfg); simpl; rewrite <- app_assoc; eauto.
    + eauto.
  - eauto.
Qed.

(** C10: [load_logging_config] with a mapping leaves the [_config] of every
    object as it was, allocates nothing and keeps [Config._instance], so
    every [get(key, default)] gives the same result before and after the
    call. *)
Theorem load_logging_config_mapping_frame w self d st :
  let st' := snd (load_logging_config w self (VDict d) st) in
  (forall i, heap st' !! i ≫= _config = heap st !! i ≫= _config)
  /\ _instance st' = _instance st
  /\ length (heap st') = length (heap st)
  /\ forall key dflt, fst (get self key dflt st') = fst (get self key dflt st).
Proof.
  intros st'. subst st'.
  destruct (load_logging_config_dict_state w self d st) as (evs & -> & _). simpl.
  assert (Hcfg : forall i,
             alter (fun o => mk_obj (_config o) (Some (VDict d))) self (heap st) !! i
               ≫= _config = heap st !! i ≫= _config).
  { intros i. by apply alter_keeps_config. }
  repeat split.
  - exact Hcfg.
  - apply length_alter.
  - intros key dflt. apply get_frame. simpl. apply Hcfg.
Qed.

(** With a mapping no parser runs and no file is touched. *)
Lemma load_logging_config_dict_no_io w self d st :
  parser_events (snd (load_logging_config w self (VDict d) st)) = parser_events st.
Proof.
  destruct (load_logging_config_dict_state w self d st) as (evs & -> & Hev).
  unfold parser_events. simpl. rewrite List.filter_app, Hev. apply app_nil_r.
Qed.

(** With an input that is neither a mapping nor a string the call raises
    the [TypeError] of its last branch. *)
Lemma load_logging_config_other_raises w self input st :
  (forall d, input <> VDict d) -> (forall s, input <> VStr s) ->
  load_logging_config w self input st
  = (Err (mk_exn TypeError [Lit "Expected type 'dict' or 'str' for input, got ";
                            Lit (type_repr input)]), st).
Proof.
  intros Hd Hs. destruct input; try reflexivity.
  - by destruct (Hs s).
  - by destruct (Hd d).
Qed.

(** C4: with a path string, [load_logging_config] calls [_load_config] with
    one argument where the method needs two, so the call raises [TypeError]
    before the dispatcher runs: nothing is parsed, nothing is applied and the
    state is as before. *)
Theorem load_logging_config_path_raises_TypeError w self path st :
  load_logging_config w self (VStr path) st
  = (Err (mk_exn TypeError
            [Lit "Config._load_config() missing 1 required positional argument: 'file_type'"]),
     st).
Proof.
  unfold load_logging_config, call__load_config, bind, raise. reflexivity.
Qed.

(** ** Last write wins *)

(** Filling a mapping entry by entry: a key holds what the last entry with
    that key gave it, and what it held before when there is none. *)
Lemma fold_insert_lookup {A} (f : A -> string) (g : A -> pyval) (l : list A)
    (d : gmap string pyval) (k : string) :
  fold_left (fun d x => <[f x := g x]> d) l d !! k
  = match last_with f k l with
    | Some x => Some (g x)
    | None => d !! k
    end.
Proof.
  unfold last_with. induction l as [|x l IH] using rev_ind; [done|].
  rewrite fold_left_app, list.filter_app. simpl.
  rewrite list.filter_cons, list.filter_nil. destruct (decide (f x = k)) as [->|Hne].
  - by rewrite last_snoc, lookup_insert_eq.
  - by rewrite app_nil_r, lookup_insert_ne.
Qed.

Lemma dict_of_lookup {A} (g : A -> pyval) (items : list (string * A)) k :
  dict_of g items !! k = g ∘ snd <$> last_with fst k items.
Proof.
  unfold dict_of.
  rewrite (fold_insert_lookup fst (fun kv => g (snd kv)) items ∅ k).
  by destruct (last_with fst k items).
Qed.

(** ** The properties parser *)

Lemma properties_line_spec d line st :
  properties_line d line st
  = (Ok (match spec_entry line with
         | Some (k, v) => <[k := VStr v]> d
         | None => d
         end), st).
Proof.
  unfold properties_line, spec_entry, truthy. rewrite negb_involutive.
  destruct (String.eqb (strip line) EmptyString || _ || _); [done|].
  destruct (contains "=" (strip line)) eqn:Heq.
  - by rewrite split_first.
  - destruct (contains ":" (strip line)) eqn:Hcolon; [|done].
    by rewrite split_first.
Qed.

Lemma properties_loop_spec lines d st :
  properties_loop d lines st
  = (Ok (fold_left (fun d kv => <[fst kv := VStr (snd kv)]> d)
                   (omap spec_entry lines) d), st).
Proof.
  revert d. induction lines as [|line rest IH]; intros d; [done|].
  simpl. unfold bind. rewrite properties_line_spec.
  destruct (spec_entry line) as [[k v]|]; simpl; apply IH.
Qed.

Lemma parse_properties_file_value w path lines st :
  open_lines w path = Ok lines ->
  fst (parse_properties_file w path st)
  = Ok (VDict (dict_of VStr (omap spec_entry lines))).
Proof.
  intros Hopen. unfold parse_properties_file, try_except, bind, emit, lift, ret. simpl.
  rewrite Hopen. by rewrite properties_loop_spec.
Qed.

(** C5: when the file opens and yields [lines], the properties parser
    returns a flat mapping to strings in which a key holds the value of the
    last line that gives that key, where a line gives a key and a value by
    the rules of [spec_entry]: trimmed, then skipped when empty or starting
    with [#] or [!], else split at the first [=], or at the first [:] when it
    has no [=], or skipped when it has neither, with key and value trimmed.
    The content ["# comment\nkey1=val1\nkey2:val2\nbadline\n"] gives
    [{"key1": "val1", "key2": "val2"}]. *)
Theorem parse_properties_file_rules w path lines st :
  open_lines w path = Ok lines ->
  exists d : gmap string pyval,
    fst (parse_properties_file w path st) = Ok (VDict d)
    /\ (forall k, d !! k = VStr ∘ snd <$> last_with fst k (omap spec_entry lines))
    /\ (lines = iter_lines properties_content ->
        d = {[ "key1" := VStr "val1"; "key2" := VStr "val2" ]}).
Proof.
  intros Hopen. exists (dict_of VStr (omap spec_entry lines)). split; [|split].
  - by apply parse_properties_file_value.
  - intros k. apply dict_of_lookup.
  - intros ->. vm_compute. reflexivity.
Qed.

Lemma parse_properties_file_rules_witness :
  exists d : gmap string pyval,
    fst (parse_properties_file properties_world (VStr "app.properties") initial)
    = Ok (VDict d)
    /\ (forall k, d !! k = VStr ∘ snd <$> last_with fst k
                             (omap spec_entry (iter_lines properties_content)))
    /\ (iter_lines properties_content = iter_lines properties_content ->
        d = {[ "key1" := VStr "val1"; "key2" := VStr "val2" ]}).
Proof.
  apply (parse_properties_file_rules properties_world (VStr "app.properties")
           (iter_lines properties_content) initial).
  reflexivity.
Defined.

(** ** The XML conversion *)

(** C6: an element with no child converts to its text, [None] when it has
    none; an element with children converts to a mapping in which a tag
    holds the conversion of the last child with that tag; and
    [<root><a>1</a><a>2</a></root>] converts to [{"a": "2"}]. *)
Theorem xml_to_dict_rule :
  (forall t txt,
      xml_to_dict (Elem t txt [])
      = match txt with Some s => VStr s | None => VNone end)
  /\ (forall t txt c cs,
         exists d : gmap string pyval,
           xml_to_dict (Elem t txt (c :: cs)) = VDict d
           /\ forall k, d !! k = xml_to_dict <$> last_with tag k (c :: cs))
  /\ xml_to_dict xml_siblings = VDict {[ "a" := VStr "2" ]}.
Proof.
  split; [|split].
  - reflexivity.
  - intros t txt c cs. eexists. split; [reflexivity|].
    intros k.
    rewrite (fold_insert_lookup tag xml_to_dict (c :: cs) ∅ k).
    by destruct (last_with tag k (c :: cs)).
  - vm_compute. reflexivity.
Qed.

(** ** The dispatcher *)

(** C3: when the dispatcher takes a path as INI and [configparser] fails
    on it, [parse_ini_file] turns the failure into a [ValueError] and
    [_load_config] logs and re-raises it as it is: what reaches the caller is
    a [ValueError], which is not a [ConfigParseError]. *)
Theorem ini_failure_reaches_caller_as_ValueError w path file_type e st :
  extension_of path file_type = VStr ".ini" ->
  configparser_read w (VStr path) = Err e ->
  caught_by e [ConfigparserError; FileNotFoundError] = true ->
  fst (_load_config w (VStr path) file_type st)
  = Err (mk_exn ValueError
           ([Lit "Failed to parse INI file '"; Fmt (VStr path); Lit "': "] ++ exn_msg e))
  /\ issubclass ValueError ConfigParseError = false.
Proof.
  intros Hext Hread Hc. split; [|reflexivity].
  unfold _load_config, extension_of in *.
  unfold try_except, bind, splitext, ret, debug, emit.
  destruct (truthy file_type); simpl.
  - subst file_type. simpl. unfold parse_ini_file, try_except, bind, emit, lift. simpl.
    rewrite Hread. simpl. rewrite Hc. reflexivity.
  - injection Hext as ->. simpl.
    unfold parse_ini_file, try_except, bind, emit, lift. simpl.
    rewrite Hread. simpl. rewrite Hc. reflexivity.
Qed.

Lemma ini_failure_reaches_caller_as_ValueError_witness :
  fst (_load_config bad_ini_world (VStr "bad.ini") VNone initial)
  = Err (mk_exn ValueError
           ([Lit "Failed to parse INI file '"; Fmt (VStr "bad.ini"); Lit "': "]
              ++ [Lit "File contains no section headers."]))
  /\ issubclass ValueError ConfigParseError = false.
Proof.
  apply (ini_failure_reaches_caller_as_ValueError bad_ini_world "bad.ini" VNone
           (mk_exn ConfigparserError [Lit "File contains no section headers."]) initial);
    reflexivity.
Defined.

(** The error for [.config]. *)
Lemma _load_config_config w path file_type st :
  extension_of path file_type = VStr ".config" ->
  _load_config w (VStr path) file_type st
  = (Err (mk_exn ConfigParseError
            [Lit "Must specify file extension to parse as for '.config' file '";
             Fmt (VStr path); Lit "'."]),
     add_trace st
       [Log DEBUG [Lit "Loading '"; Fmt (VStr ".config"); Lit "' file '";
                   Fmt (VStr path); Lit "'."];
        Log ERROR [Lit "Could not load configuration."]]).
Proof.
  intros Hext. unfold _load_config, extension_of in *.
  unfold try_except, bind, splitext, ret, debug, emit, add_trace.
  destruct (truthy file_type); simpl.
  - subst file_type. simpl. by rewrite <- app_assoc.
  - injection Hext as ->. simpl. by rewrite <- app_assoc.
Qed.

(** The error for an extension outside the table. *)
Lemma _load_config_unsupported w path file_type st :
  Forall (fun s => eq_str (extension_of path file_type) s = false)
         (".config" :: supported_extensions) ->
  _load_config w (VStr path) file_type st
  = (Err (mk_exn ConfigParseError
            [Lit "Invalid file extension: "; Fmt (VStr path);
             Lit ". Expected a '.toml', '.json', '.yaml', '.ini', '.xml', '.properties', '.env', or '.config' file."]),
     add_trace st
       [Log DEBUG [Lit "Loading '"; Fmt (extension_of path file_type); Lit "' file '";
                   Fmt (VStr path); Lit "'."];
        Log ERROR [Lit "Could not load configuration."]]).
Proof.
  intros H. unfold supported_extensions in H.
  repeat match goal with
         | H : Forall _ (_ :: _) |- _ => inversion_clear H
         end.
  unfold _load_config, extension_of in *.
  unfold try_except, bind, splitext, ret, debug, emit, add_trace.
  destruct (truthy file_type); simpl in *;
    repeat match goal with
           | E : _ = false |- _ => rewrite E; clear E
           end;
    unfold raise, reraise; simpl; by rewrite <- app_assoc.
Qed.

(** C8: a path whose extension is [.config], with no override, makes the
    dispatcher raise a [ConfigParseError]; an extension outside the table
    (and other than [.config]) makes it raise a [ConfigParseError] too; the
    two messages differ whatever the paths are; and in both cases no parser
    has been invoked and no file touched. *)
Theorem config_extension_rejected_distinctly w path file_type st :
  truthy file_type = false ->
  snd (splitext_str path) = ".config" ->
  exists m,
    fst (_load_config w (VStr path) file_type st) = Err (mk_exn ConfigParseError m)
    /\ parser_events (snd (_load_config w (VStr path) file_type st)) = parser_events st
    /\ forall w' path' file_type' st',
        Forall (fun s => eq_str (extension_of path' file_type') s = false)
               (".config" :: supported_extensions) ->
        exists m',
          fst (_load_config w' (VStr path') file_type' st')
          = Err (mk_exn ConfigParseError m')
          /\ parser_events (snd (_load_config w' (VStr path') file_type' st'))
             = parser_events st'
          /\ forall str_of, render str_of m <> render str_of m'.
Proof.
  intros Hov Hext.
  assert (Hx : extension_of path file_type = VStr ".config").
  { unfold extension_of. by rewrite Hov, Hext. }
  rewrite (_load_config_config w path file_type st Hx). eexists. split; [reflexivity|].
  split.
  - unfold parser_events. simpl. rewrite List.filter_app. simpl. apply app_nil_r.
  - intros w' path' file_type' st' Hun.
    rewrite (_load_config_unsupported w' path' file_type' st' Hun).
    eexists. split; [reflexivity|]. split.
    + unfold parser_events. simpl. rewrite List.filter_app. simpl. apply app_nil_r.
    + intros str_of. simpl. discriminate.
Qed.

Lemma config_extension_rejected_distinctly_witness :
  exists m,
    fst (_load_config bare_world (VStr "app.config") VNone initial)
    = Err (mk_exn ConfigParseError m)
    /\ parser_events (snd (_load_config bare_world (VStr "app.config") VNone initial))
       = parser_events initial
    /\ forall w' path' file_type' st',
        Forall (fun s => eq_str (extension_of path' file_type') s = false)
               (".config" :: supported_extensions) ->
        exists m',
          fst (_load_config w' (VStr path') file_type' st')
          = Err (mk_exn ConfigParseError m')
          /\ parser_events (snd (_load_config w' (VStr path') file_type' st'))
             = parser_events st'
          /\ forall str_of, render str_of m <> render str_of m'.
Proof.
  apply (config_extension_rejected_distinctly bare_world "app.config" VNone initial);
    reflexivity.
Defined.

(** The dispatcher and the parsers work on the path and the world alone. *)
Lemma oblivious_properties_loop lines d : oblivious (properties_loop d lines).
Proof.
  apply oblivious_iff. eexists _, []. intros st.
  rewrite properties_loop_spec. by rewrite add_trace_nil.
Qed.

Lemma oblivious__load_config w file_path file_type :
  oblivious (_load_config w file_path file_type).
Proof.
  unfold _load_config, splitext, debug, log_exception.
  apply oblivious_try_except.
  - apply oblivious_bind; [oblivious_tac|]. intros ext.
    apply oblivious_bind; [oblivious_tac|]. intros _.
    unfold parse_toml_file, parse_json_file, parse_yaml_file, parse_ini_file,
      parse_xml_file, parse_properties_file, parse_env_file.
    repeat match goal with
           | |- oblivious (if ?b then _ else _) => destruct b
           end;
      repeat first [ apply oblivious_properties_loop | oblivious_step ].
  - apply Forall_cons; [|apply Forall_nil]. simpl. intros e. oblivious_tac.
Qed.

Lemma oblivious_call__load_config w args : oblivious (call__load_config w args).
Proof.
  destruct args as [|a [|b [|c rest]]]; simpl;
    try apply oblivious_raise. apply oblivious__load_config.
Qed.

Lemma oblivious_apply_dictConfig w cfg : oblivious (apply_dictConfig w cfg).
Proof. unfold apply_dictConfig. oblivious_tac. Qed.

(** Running an oblivious computation first. *)
Lemma bind_oblivious {A B} (m : M A) (k : A -> M B) st :
  oblivious m ->
  bind m k st
  = match fst (m initial) with
    | Ok a => k a (add_trace st (trace (snd (m initial))))
    | Err e => (Err e, add_trace st (trace (snd (m initial))))
    end.
Proof. intros H. unfold bind. rewrite (H st). by destruct (fst (m initial)). Qed.

(** ** The singleton *)

Lemma same_shape_refl st : same_shape st st.
Proof. by split. Qed.

Lemma same_shape_trans st1 st2 st3 :
  same_shape st1 st2 -> same_shape st2 st3 -> same_shape st1 st3.
Proof. intros [H1 H2] [H3 H4]. split; congruence. Qed.

Lemma keeps_shape_oblivious {A} (m : M A) : oblivious m -> keeps_shape m.
Proof. intros H st. rewrite (H st). by split. Qed.

Lemma keeps_shape_bind {A B} (m : M A) (k : A -> M B) :
  keeps_shape m -> (forall a, keeps_shape (k a)) -> keeps_shape (bind m k).
Proof.
  intros Hm Hk st. unfold bind. specialize (Hm st).
  destruct (m st) as [[a|e] st1]; simpl in *; [|done].
  eapply same_shape_trans; [exact Hm | apply Hk].
Qed.

Lemma keeps_shape_update self f : keeps_shape (update self f).
Proof. intros st. split; simpl; [apply length_alter | done]. Qed.

Lemma keeps_shape_getattr self name field : keeps_shape (getattr self name field).
Proof. intros st. unfold getattr. destruct (_ ≫= _); apply same_shape_refl. Qed.

Lemma keeps_shape__setup w self p t lp lt : keeps_shape (_setup w self p t lp lt).
Proof.
  unfold _setup, set__config, set__logging_config, get__logging_config.
  repeat first
    [ apply keeps_shape_update | apply keeps_shape_getattr
    | apply keeps_shape_oblivious;
      first [ apply oblivious_call__load_config | apply oblivious_apply_dictConfig
            | apply oblivious_ret ]
    | apply keeps_shape_bind; [| intros ?]
    | match goal with
      | |- keeps_shape (if ?b then _ else _) => destruct b
      end ].
Qed.

(** A construction when there is an instance: nothing happens. *)
Lemma __new___existing w p t lp lt st self :
  _instance st = Some self -> __new__ w p t lp lt st = (Ok (Some self), st).
Proof.
  intros H. unfold __new__, bind, get__instance, ret. simpl.
  rewrite H. simpl. by rewrite H.
Qed.

(** A construction when there is none: one object is allocated and made
    the instance before [_setup] runs on it. *)
Lemma __new___fresh w p t lp lt st :
  _instance st = None ->
  let self := length (heap st) in
  let st0 := mk_proc (heap st ++ [mk_obj None None]) (Some self) (trace st) in
  __new__ w p t lp lt st
  = match _setup w self p t lp lt st0 with
    | (Ok _, st') => (Ok (_instance st'), st')
    | (Err e, st') => (Err e, st')
    end.
Proof.
  intros H. unfold __new__, bind, get__instance, alloc, set__instance, ret. simpl.
  rewrite H. simpl. by destruct (_setup _ _ _ _ _ _ _) as [[[]|e] st'].
Qed.

Lemma singleton_construct w a st : singleton st -> singleton (snd (construct w a st)).
Proof.
  destruct a as [[[p t] lp] lt]. unfold singleton, construct. intros Hs.
  destruct (_instance st) as [self|] eqn:Hi.
  - rewrite (__new___existing w p t lp lt st self Hi). simpl. by rewrite Hi.
  - rewrite (__new___fresh w p t lp lt st Hi), Hs. simpl.
    pose proof (keeps_shape__setup w 0 p t lp lt
                  (mk_proc [mk_obj None None] (Some 0%nat) (trace st))) as [Hl Hinst].
    destruct (_setup _ _ _ _ _ _ _) as [[[]|e] st']; simpl in *; by rewrite Hinst.
Qed.

Lemma singleton_run_calls w calls st : singleton st -> singleton (run_calls w calls st).
Proof.
  revert st. induction calls as [|a rest IH]; intros st Hs; [done|].
  simpl. apply IH. by apply singleton_construct.
Qed.

Lemma singleton_at_most_one st : singleton st -> length (heap st) <= 1.
Proof.
  unfold singleton. destruct (_instance st); [intros [_ ->] | intros ->]; simpl; lia.
Qed.

Lemma _setup_returns w self p t lp lt st st' o :
  heap st !! self = Some o ->
  _setup w self p t lp lt st = (Ok tt, st') ->
  exists tree, fst (_load_config w p t initial) = Ok tree
               /\ heap st' !! self ≫= _config = Some tree.
Proof.
  intros Hself. unfold _setup.
  rewrite bind_oblivious by apply oblivious_call__load_config.
  change (call__load_config w [p; t]) with (_load_config w p t).
  destruct (fst (_load_config w p t initial)) as [tree|e]; [|done].
  intros Hrun. exists tree. split; [done|]. revert Hrun.
  unfold bind at 1, set__config, update. simpl.
  rewrite bind_oblivious
    by (destruct (truthy lp); [apply oblivious__load_config | apply oblivious_ret]).
  destruct (fst _) as [lcfg|e]; [|done].
  unfold bind, set__logging_config, update, get__logging_config, getattr,
    apply_dictConfig, emit, ret, reraise. simpl.
  rewrite !list_lookup_alter_eq, Hself. simpl.
  destruct (truthy lcfg); [unfold bind; simpl; destruct (dictConfig w lcfg)|];
    intros [= <-]; simpl; by rewrite !list_lookup_alter_eq, Hself.
Qed.

(** C7: at most one [Config] object exists, however many times the
    constructor is called from the start of the process; a construction in a
    state that has an instance returns that instance and changes nothing,
    whatever its parameters; and when the first construction returns, the
    instance holds the tree loaded from the first call's path and format,
    and every later construction returns the same instance in the same
    state. *)
Theorem singleton_first_construction_wins w :
  (forall calls, length (heap (run_calls w calls initial)) <= 1)
  /\ (forall st self p t lp lt,
         _instance st = Some self -> __new__ w p t lp lt st = (Ok (Some self), st))
  /\ (forall p1 t1 lp1 lt1 r st1,
         __new__ w p1 t1 lp1 lt1 initial = (Ok r, st1) ->
         exists tree,
           r = Some 0%nat
           /\ fst (_load_config w p1 t1 initial) = Ok tree
           /\ heap st1 !! 0%nat ≫= _config = Some tree
           /\ forall p2 t2 lp2 lt2 key dflt,
               __new__ w p2 t2 lp2 lt2 st1 = (Ok (Some 0%nat), st1)
               /\ fst (get 0 key dflt st1) = fst (get 0 key dflt (loaded tree))).
Proof.
  split; [|split].
  - intros calls. apply singleton_at_most_one, singleton_run_calls. reflexivity.
  - intros st self p t lp lt. apply __new___existing.
  - intros p1 t1 lp1 lt1 r st1. rewrite __new___fresh by reflexivity. simpl.
    pose proof (keeps_shape__setup w 0 p1 t1 lp1 lt1
                  (mk_proc [mk_obj None None] (Some 0%nat) [])) as [_ Hinst].
    destruct (_setup w 0 p1 t1 lp1 lt1 _) as [[[]|e] st'] eqn:Hsetup; [|done].
    simpl in Hinst. intros [= <- <-].
    eapply _setup_returns in Hsetup as (tree & Hload & Hcfg); [|reflexivity].
    exists tree. repeat split; try done.
    + by apply __new___existing.
    + apply get_frame. by rewrite Hcfg.
Qed.

Lemma singleton_first_construction_wins_witness :
  fst (__new__ two_json_world (VStr "a.json") VNone VNone VNone initial) = Ok (Some 0%nat)
  /\ (let st1 := snd (__new__ two_json_world (VStr "a.json") VNone VNone VNone initial) in
      __new__ two_json_world (VStr "b.json") VNone VNone VNone st1 = (Ok (Some 0%nat), st1)
      /\ fst (get 0 (VStr "k") VNone st1) = Ok (VInt 1)).
Proof.
  destruct (singleton_first_construction_wins two_json_world) as (_ & _ & H).
  assert (Hfst : fst (__new__ two_json_world (VStr "a.json") VNone VNone VNone initial)
                 = Ok (Some 0%nat)) by (vm_compute; reflexivity).
  split; [exact Hfst|]. cbv zeta.
  destruct (H (VStr "a.json") VNone VNone VNone (Some 0%nat)
              (snd (__new__ two_json_world (VStr "a.json") VNone VNone VNone initial)))
    as (tree & _ & Hload & _ & Hlater).
  { rewrite <- Hfst. apply surjective_pairing. }
  assert (Ht : tree = VDict {[ "k" := VInt 1 ]}).
  { vm_compute in Hload. by injection Hload. }
  subst tree. split.
  - apply (Hlater (VStr "b.json") VNone VNone VNone VNone VNone).
  - rewrite (proj2 (Hlater VNone VNone VNone VNone (VStr "k") VNone)).
    vm_compute. reflexivity.
Defined.

(** A first construction that fails leaves its object behind as the
    instance: the next construction returns it, with no [_config], and
    [get] on it raises. *)
Example failed_first_construction_sticks :
  let st1 := snd (__new__ two_json_world (VStr "missing.json") VNone VNone VNone initial) in
  exn_cls <$> (match fst (__new__ two_json_world (VStr "missing.json")
                            VNone VNone VNone initial) with
               | Err e => Some e
               | Ok _ => None
               end) = Some ConfigParseError
  /\ __new__ two_json_world (VStr "a.json") VNone VNone VNone st1 = (Ok (Some 0%nat), st1)
  /\ heap st1 !! 0%nat ≫= _config = None.
Proof. repeat split; vm_compute; reflexivity. Qed.

(** * Further properties *)

(** ** [Config.get]: what a lookup returns *)

Lemma truthy_key key : key <> EmptyString -> truthy (VStr key) = true.
Proof. by destruct key. Qed.

Lemma get_loop_resolved keys key value dflt st v :
  resolve value keys = Some v -> v <> VNone ->
  exists key', fst (get_loop keys key value dflt st) = Ok (inr (key', v)).
Proof.
  revert key value st. induction keys as [|k rest IH]; intros key value st Hr Hv.
  - injection Hr as ->. by exists key.
  - simpl in Hr. destruct value as [| | | | |d]; try done.
    destruct (d !! k) as [v1|] eqn:Hk; [|done]. simpl in Hr.
    simpl. unfold bind at 1. simpl. rewrite Hk. simpl.
    assert (Hn : is_None v1 = false).
    { destruct rest; [injection Hr as ->; by destruct v | by destruct v1]. }
    rewrite Hn. by apply IH.
Qed.

(** Running [get] when [self._config] holds [value] and the key is a
    non-empty string: the loop over the split key, then the debug line. *)
Lemma get_run self key dflt st value :
  heap st !! self ≫= _config = Some value ->
  key <> EmptyString ->
  get self (VStr key) dflt st
  = bind (get_loop (split "." None key) (VStr key) value dflt)
         (fun r => match r with
                   | inl v => ret v
                   | inr (key, value) =>
                       bind (debug [Lit "Value ["; Fmt value;
                                    Lit "] found for key ["; Fmt key; Lit "]."])
                            (fun _ => ret value)
                   end) st.
Proof.
  intros Hcfg Hkey. rewrite get_unfold, Hcfg, (truthy_key key Hkey).
  reflexivity.
Qed.

(** X1: a key that leads through mappings to a stored value other than
    [None] gives that value, whatever the default. *)
Theorem get_returns_stored_value self key dflt tree st v :
  heap st !! self ≫= _config = Some tree ->
  key <> EmptyString ->
  resolve tree (split "." None key) = Some v ->
  v <> VNone ->
  fst (get self (VStr key) dflt st) = Ok v.
Proof.
  intros Hcfg Hkey Hr Hv. rewrite (get_run self key dflt st tree Hcfg Hkey).
  destruct (get_loop_resolved (split "." None key) (VStr key) tree dflt st v Hr Hv)
    as [key' Hloop].
  unfold bind at 1.
  destruct (get_loop _ _ _ _ st) as [[r|e] st1]; simpl in Hloop; [|done].
  by injection Hloop as ->.
Qed.

Lemma get_returns_stored_value_witness :
  fst (get 0 (VStr "a.b") (VInt 42) (loaded tree_ab)) = Ok (VInt 5).
Proof.
  apply get_returns_stored_value with (tree := tree_ab);
    first [reflexivity | discriminate].
Defined.

(** X2: with no key, or any key that is false in a condition ([None],
    the empty string), [get] returns the whole tree and the default is not
    looked at. *)
Theorem get_without_key_returns_tree self key dflt tree st :
  heap st !! self ≫= _config = Some tree ->
  truthy key = false ->
  fst (get self key dflt st) = Ok tree.
Proof. intros Hcfg Hkey. by rewrite get_unfold, Hcfg, Hkey. Qed.

Lemma get_without_key_returns_tree_witness :
  fst (get 0 (VStr EmptyString) (VInt 1) (loaded tree_ab)) = Ok tree_ab.
Proof. apply get_without_key_returns_tree; reflexivity. Defined.

Lemma get_loop_app prefix keys key value dflt st d :
  resolve value prefix = Some (VDict d) ->
  exists key',
    get_loop (prefix ++ keys) key value dflt st = get_loop keys key' (VDict d) dflt st.
Proof.
  revert key value st. induction prefix as [|k rest IH]; intros key value st Hr.
  - injection Hr as ->. by exists key.
  - simpl in Hr. destruct value as [| | | | |d0]; try done.
    destruct (d0 !! k) as [v1|] eqn:Hk; [|done]. simpl in Hr.
    simpl. unfold bind at 1. simpl. rewrite Hk. simpl.
    assert (Hn : is_None v1 = false).
    { destruct rest; [by injection Hr as -> | by destruct v1]. }
    rewrite Hn. apply IH, Hr.
Qed.

(** X3: when the key leads through mappings to a mapping that lacks the
    next segment, [get] returns the default if that segment is the last one
    or if the default is [None]. *)
Theorem get_absent_segment_returns_default self key dflt tree st prefix k rest d :
  heap st !! self ≫= _config = Some tree ->
  key <> EmptyString ->
  split "." None key = prefix ++ k :: rest ->
  resolve tree prefix = Some (VDict d) ->
  d !! k = None ->
  rest = [] \/ dflt = VNone ->
  fst (get self (VStr key) dflt st) = Ok dflt.
Proof.
  intros Hcfg Hkey Hsplit Hr Hk Hcase.
  rewrite (get_run self key dflt st tree Hcfg Hkey), Hsplit.
  unfold bind at 1.
  destruct (get_loop_app prefix (k :: rest) (VStr key) tree dflt st d Hr) as [key' ->].
  simpl. unfold bind at 1. simpl. rewrite Hk. simpl.
  destruct (is_None dflt) eqn:Hn; [done|].
  destruct Hcase as [-> | ->]; [done | discriminate].
Qed.

Lemma get_absent_segment_returns_default_witness :
  fst (get 0 (VStr "a.c") (VInt 42) (loaded tree_ab)) = Ok (VInt 42).
Proof.
  apply (get_absent_segment_returns_default 0%nat "a.c" (VInt 42) tree_ab
           (loaded tree_ab) ["a"] "c" [] {[ "b" := VInt 5 ]});
    first [reflexivity | discriminate | by left].
Defined.

(** ** [Config.get]: what a lookup leaves behind *)



(** ** The dispatcher: which parser runs and what is logged *)

Lemma issubclass_Exception c : issubclass c Exception = true.
Proof. by destruct c. Qed.

Lemma caught_by_Exception e : caught_by e [Exception] = true.
Proof. unfold caught_by. simpl. by rewrite issubclass_Exception. Qed.

Lemma oblivious_run_parser w p file_path : oblivious (run_parser w p file_path).
Proof.
  destruct p; simpl;
    unfold parse_toml_file, parse_json_file, parse_yaml_file, parse_ini_file,
      parse_xml_file, parse_properties_file, parse_env_file;
    repeat first [ apply oblivious_properties_loop | oblivious_step ].
Qed.

(** The handler of [_load_config] changes no result. *)
Lemma try_reraise_fst {A} (m : M A) msg st :
  fst (try_except m [([Exception], fun e => bind (log_exception msg) (fun _ => reraise e))] st)
  = fst (m st).
Proof.
  unfold try_except. destruct (m st) as [[a|e] st1]; [done|].
  simpl. by rewrite caught_by_Exception.
Qed.

(** The result of a load is the result of the parser of the extension in
    force. *)
Lemma _load_config_dispatch w path file_type ext p st :
  extension_of path file_type = VStr ext ->
  parser_for ext = Some p ->
  fst (_load_config w (VStr path) file_type st) = fst (run_parser w p (VStr path) st).
Proof.
  intros Hext Hp. unfold _load_config. rewrite try_reraise_fst.
  assert (Hfe : forall B (k : pyval -> M B) st0,
             bind (if truthy file_type then ret file_type
                   else bind (splitext (VStr path)) (fun parts => ret (VStr (snd parts))))
                  k st0 = k (VStr ext) st0).
  { intros B k st0. unfold extension_of in Hext. unfold bind, splitext, ret.
    destruct (truthy file_type); simpl; by rewrite Hext. }
  rewrite Hfe. unfold bind at 1, debug, emit. simpl.
  rewrite (oblivious_fst (run_parser w p (VStr path)) st
             (mk_proc (heap st) (_instance st)
                (trace st ++ [Log DEBUG [Lit "Loading '"; Fmt (VStr ext); Lit "' file '";
                                         Fmt (VStr path); Lit "'."]])))
    by apply oblivious_run_parser.
  unfold parser_for in Hp.
  repeat match type of Hp with
         | (if ?b then _ else _) = _ => destruct b; [by injection Hp as <- |]
         end.
  done.
Qed.

(** X5: the dispatcher adds nothing to and takes nothing from what the
    selected parser gives: when the extension in force (the override, else
    the extension of the path) is in the table, [_load_config] returns the
    value or raises the exception of that extension's parser on the path. *)
Theorem _load_config_gives_parser_result w path file_type ext p st :
  extension_of path file_type = VStr ext ->
  parser_for ext = Some p ->
  fst (_load_config w (VStr path) file_type st) = fst (run_parser w p (VStr path) st).
Proof. apply _load_config_dispatch. Qed.

Lemma _load_config_gives_parser_result_witness :
  fst (_load_config two_json_world (VStr "settings.conf") (VStr ".json") initial)
  = fst (run_parser two_json_world Json (VStr "settings.conf") initial).
Proof.
  apply (_load_config_gives_parser_result two_json_world "settings.conf" (VStr ".json")
           ".json" Json initial); reflexivity.
Defined.

Lemma quiet_intro {A} (m : M A) r evs :
  (forall st, m st = (r, add_trace st evs)) ->
  List.filter is_error_line evs = [] -> quiet m.
Proof. intros H Hf st. exists evs. by rewrite H. Qed.

Lemma quiet_ret {A} (a : A) : quiet (ret a).
Proof. apply (quiet_intro _ (Ok a) []); [|done]. intros st. by rewrite add_trace_nil. Qed.

Lemma quiet_raise {A} c m : quiet (@raise A c m).
Proof.
  apply (quiet_intro _ (Err (mk_exn c m)) []); [|done].
  intros st. by rewrite add_trace_nil.
Qed.

Lemma quiet_lift {A} (r : res A) : quiet (lift r).
Proof. apply (quiet_intro _ r []); [|done]. intros st. by rewrite add_trace_nil. Qed.

Lemma quiet_emit ev : is_error_line ev = false -> quiet (emit ev).
Proof.
  intros H. apply (quiet_intro _ (Ok tt) [ev]); [done|]. simpl. by rewrite H.
Qed.

Lemma quiet_bind {A B} (m : M A) (k : A -> M B) :
  quiet m -> (forall a, quiet (k a)) -> quiet (bind m k).
Proof.
  intros Hm Hk st. destruct (Hm st) as (evs & Hs & Hf). unfold bind.
  destruct (m st) as [[a|e] st1]; simpl in Hs; subst st1.
  - destruct (Hk a (add_trace st evs)) as (evs' & Hs' & Hf').
    exists (evs ++ evs'). rewrite Hs', add_trace_app, List.filter_app, Hf, Hf'. done.
  - by exists evs.
Qed.

Lemma quiet_handle {A} (hs : list (list exn_class * (exn -> M A))) e :
  Forall (fun ch => forall e', quiet (snd ch e')) hs -> quiet (handle hs e).
Proof.
  induction 1 as [|[cs h] hs Hh _ IH]; simpl.
  - apply (quiet_intro _ (Err e) []); [|done]. intros st. by rewrite add_trace_nil.
  - destruct (caught_by e cs); [apply Hh | apply IH].
Qed.

Lemma quiet_try_except {A} (m : M A) hs :
  quiet m -> Forall (fun ch => forall e', quiet (snd ch e')) hs ->
  quiet (try_except m hs).
Proof.
  intros Hm Hhs st. destruct (Hm st) as (evs & Hs & Hf). unfold try_except.
  destruct (m st) as [[a|e] st1]; simpl in Hs; subst st1.
  - by exists evs.
  - destruct (quiet_handle hs e Hhs (add_trace st evs)) as (evs' & Hs' & Hf').
    exists (evs ++ evs'). rewrite Hs', add_trace_app, List.filter_app, Hf, Hf'. done.
Qed.

Lemma quiet_properties_loop lines d : quiet (properties_loop d lines).
Proof.
  intros st. exists []. rewrite properties_loop_spec. simpl.
  by rewrite add_trace_nil.
Qed.

Ltac quiet_step :=
  first
    [ apply quiet_ret | apply quiet_raise | apply quiet_lift
    | apply quiet_emit; reflexivity
    | apply quiet_properties_loop
    | apply quiet_bind; [| intros ?]
    | apply quiet_try_except;
      [| repeat (first [apply Forall_nil | apply Forall_cons; [simpl; intros ? |]])]
    | match goal with
      | |- quiet (if ?b then _ else _) => destruct b
      | |- quiet (match ?x with _ => _ end) => destruct x
      end ].

Lemma quiet_run_parser w p file_path : quiet (run_parser w p file_path).
Proof.
  destruct p; simpl;
    unfold parse_toml_file, parse_json_file, parse_yaml_file, parse_ini_file,
      parse_xml_file, parse_properties_file, parse_env_file;
    repeat quiet_step.
Qed.

(** X6: a load changes no object; it logs the line "Could not load
    configuration." at level ERROR exactly when it fails, once and as the
    last thing it does. *)
Theorem _load_config_logs_failure_once w file_path file_type st :
  exists evs,
    snd (_load_config w file_path file_type st) = add_trace st evs
    /\ match fst (_load_config w file_path file_type st) with
       | Ok _ => List.filter is_error_line evs = []
       | Err _ =>
           exists evs', evs = evs' ++ [load_failure_line]
                        /\ List.filter is_error_line evs' = []
       end.
Proof.
  unfold _load_config.
  match goal with
  | |- context [try_except ?b _] => set (body := b)
  end.
  assert (Hq : quiet body).
  { subst body. unfold splitext, debug.
    apply quiet_bind; [repeat quiet_step|]. intros ext.
    apply quiet_bind; [repeat quiet_step|]. intros _.
    repeat match goal with
           | |- quiet (if ?b then _ else _) => destruct b
           end;
      first [ apply (quiet_run_parser w Toml) | apply (quiet_run_parser w Json)
            | apply (quiet_run_parser w Yaml) | apply (quiet_run_parser w Ini)
            | apply (quiet_run_parser w Xml) | apply (quiet_run_parser w Properties)
            | apply (quiet_run_parser w Env) | apply quiet_raise ]. }
  unfold try_except. destruct (Hq st) as (evs & Hs & Hf).
  destruct (body st) as [[a|e] st1]; simpl in Hs; subst st1.
  - by exists evs.
  - simpl. rewrite caught_by_Exception.
    unfold bind, log_exception, emit, reraise. simpl.
    exists (evs ++ [load_failure_line]). split.
    + unfold add_trace. simpl. by rewrite app_assoc.
    + by exists evs.
Qed.



(** ** The parsers behind the dispatcher *)

Lemma wrapper_result {A} (ev ev' : event) (r : res A) cs prefix st :
  fst (bind (emit ev)
         (fun _ => try_except (bind (emit ev') (fun _ => lift r))
                     [(cs, fun e => raise ConfigParseError (Lit prefix :: exn_msg e))]) st)
  = match r with
    | Ok v => Ok v
    | Err e => Err (if caught_by e cs
                    then mk_exn ConfigParseError (Lit prefix :: exn_msg e)
                    else e)
    end.
Proof.
  unfold bind, try_except, emit, lift. simpl.
  destruct r as [v|e]; [done|]. simpl. by destruct (caught_by e cs).
Qed.

(** X8: for TOML, JSON, YAML and XML a load returns what the library
    gives; when the library raises the format's own error or
    [FileNotFoundError] the load raises [ConfigParseError] with the cause's
    message after the format's prefix; any other exception of the library
    reaches the caller as it is. *)
Theorem _load_config_wraps_two_failures w path file_type ext p r st :
  extension_of path file_type = VStr ext ->
  parser_for ext = Some p ->
  library_result w p (VStr path) = Some r ->
  fst (_load_config w (VStr path) file_type st)
  = match r with
    | Ok v => Ok v
    | Err e =>
        Err (if caught_by e [decode_error p; FileNotFoundError]
             then mk_exn ConfigParseError (Lit (failure_prefix p) :: exn_msg e)
             else e)
    end.
Proof.
  intros Hext Hp Hr.
  rewrite (_load_config_dispatch w path file_type ext p st Hext Hp).
  destruct p; simpl in Hr; try done; injection Hr as <-; simpl.
  - apply wrapper_result.
  - apply wrapper_result.
  - apply wrapper_result.
  - unfold parse_xml_file, bind, try_except, emit, lift, ret. simpl.
    destruct (ET_parse w (VStr path)) as [root|e]; [done|]. simpl.
    by destruct (caught_by e _).
Qed.

Lemma _load_config_wraps_two_failures_witness :
  fst (_load_config locked_json_world (VStr "app.json") VNone initial)
  = Err (mk_exn PermissionError [Lit "[Errno 13] Permission denied"]).
Proof.
  apply (_load_config_wraps_two_failures locked_json_world "app.json" VNone ".json" Json
           (Err (mk_exn PermissionError [Lit "[Errno 13] Permission denied"])) initial);
    reflexivity.
Defined.

(** X9: a [.env] load is [dotenv_values] and nothing more: its value is
    returned and its exception, of whatever class, raised unchanged. *)
Theorem _load_config_env_is_dotenv_values w path file_type st :
  extension_of path file_type = VStr ".env" ->
  fst (_load_config w (VStr path) file_type st) = dotenv_values w (VStr path).
Proof.
  intros Hext.
  rewrite (_load_config_dispatch w path file_type ".env" Env st Hext eq_refl).
  simpl. unfold parse_env_file, bind, emit, lift, ret. simpl.
  by destruct (dotenv_values w (VStr path)).
Qed.

Lemma _load_config_env_is_dotenv_values_witness :
  fst (_load_config bare_world (VStr "prod.env") VNone initial)
  = dotenv_values bare_world (VStr "prod.env").
Proof. apply _load_config_env_is_dotenv_values. reflexivity. Defined.

(** X10: a properties load returns a mapping or raises
    [ConfigParseError]; no other exception leaves it, whatever opening and
    reading the file raises. *)
Theorem properties_load_raises_only_ConfigParseError w path file_type st :
  extension_of path file_type = VStr ".properties" ->
  match fst (_load_config w (VStr path) file_type st) with
  | Ok v => exists d, v = VDict d
  | Err e => exn_cls e = ConfigParseError
  end.
Proof.
  intros Hext.
  rewrite (_load_config_dispatch w path file_type ".properties" Properties st
             Hext eq_refl).
  simpl. unfold parse_properties_file, try_except, bind, emit, lift, ret. simpl.
  destruct (open_lines w (VStr path)) as [lines|e]; simpl.
  - rewrite properties_loop_spec. simpl. eauto.
  - destruct (caught_by e [FileNotFoundError]); [done|].
    destruct (caught_by e [OSError]); [done|].
    by rewrite caught_by_Exception.
Qed.

Lemma properties_load_raises_only_ConfigParseError_witness :
  match fst (_load_config bare_world (VStr "app.properties") VNone initial) with
  | Ok v => exists d, v = VDict d
  | Err e => exn_cls e = ConfigParseError
  end.
Proof.
  apply (properties_load_raises_only_ConfigParseError bare_world "app.properties"
           VNone initial).
  reflexivity.
Defined.

(** ** [str.strip] *)

Lemma rstrip_keeps_head c r :
  isspace c = false -> exists r', rstrip (String c r) = String c r'.
Proof. intros H. simpl. rewrite H. destruct (rstrip r); eauto. Qed.

Lemma rstrip_idem s : rstrip (rstrip s) = rstrip s.
Proof.
  induction s as [|c r IH]; [done|]. simpl.
  destruct (rstrip r) as [|d r'] eqn:E.
  - destruct (isspace c) eqn:Hc; [done|]. simpl. by rewrite Hc.
  - change (rstrip (String c (String d r')) = String c (String d r')).
    simpl. simpl in IH. by rewrite IH.
Qed.

Lemma lstrip_head s :
  lstrip s = EmptyString \/ exists c r, lstrip s = String c r /\ isspace c = false.
Proof.
  induction s as [|c r IH]; [by left|]. simpl.
  destruct (isspace c) eqn:Hc; [done|]. right. eauto.
Qed.

(** Trimming what is trimmed changes nothing. *)
Lemma strip_idem s : strip (strip s) = strip s.
Proof.
  unfold strip. destruct (lstrip_head s) as [->|(c & r & -> & Hc)]; [done|].
  destruct (rstrip_keeps_head c r Hc) as [r' Hr].
  assert (Hl : lstrip (rstrip (String c r)) = rstrip (String c r)).
  { rewrite Hr. simpl. by rewrite Hc. }
  by rewrite Hl, rstrip_idem.
Qed.

(** ** The properties parser: the entries *)

Lemma last_with_Some {A} (f : A -> string) k (l : list A) x :
  last_with f k l = Some x -> f x = k /\ x ∈ l.
Proof.
  unfold last_with. intros H. apply last_Some_elem_of in H.
  by apply list_elem_of_filter in H.
Qed.

Lemma spec_entry_trimmed line k s :
  spec_entry line = Some (k, s) -> strip k = k /\ strip s = s.
Proof.
  unfold spec_entry. destruct (_ || _ || _); [done|].
  destruct (contains "=" _); [|destruct (contains ":" _); [|done]];
    intros [= <- <-]; by rewrite !strip_idem.
Qed.

Lemma parse_properties_file_Ok w path st v :
  fst (parse_properties_file w path st) = Ok v ->
  exists lines, open_lines w path = Ok lines
                /\ v = VDict (dict_of VStr (omap spec_entry lines)).
Proof.
  destruct (open_lines w path) as [lines|e] eqn:Hopen.
  - rewrite (parse_properties_file_value w path lines st Hopen).
    intros [= <-]. eauto.
  - unfold parse_properties_file, try_except, bind, emit, lift, ret. simpl.
    rewrite Hopen. simpl.
    destruct (caught_by e [FileNotFoundError]); [done|].
    destruct (caught_by e [OSError]); [done|].
    by rewrite caught_by_Exception.
Qed.

(** X11: in the mapping the properties parser returns every value is a
    string, and no key and no value has white space at either end. *)
Theorem properties_entries_are_trimmed_strings w path st d k v :
  fst (parse_properties_file w path st) = Ok (VDict d) ->
  d !! k = Some v ->
  strip k = k /\ exists s, v = VStr s /\ strip s = s.
Proof.
  intros Hrun Hk.
  destruct (parse_properties_file_Ok w path st _ Hrun) as (lines & _ & [= ->]).
  rewrite dict_of_lookup in Hk.
  destruct (last_with fst k (omap spec_entry lines)) as [[k' s]|] eqn:Hl; [|done].
  injection Hk as <-. apply last_with_Some in Hl as [Hk' Hin]. simpl in Hk'. subst k'.
  apply list_elem_of_omap in Hin as (line & _ & Hline).
  apply spec_entry_trimmed in Hline as [Hk Hs]. eauto.
Qed.

Lemma properties_entries_are_trimmed_strings_witness :
  strip "key1" = "key1" /\ exists s, VStr "val1" = VStr s /\ strip s = s.
Proof.
  apply (properties_entries_are_trimmed_strings properties_world (VStr "app.properties")
           initial {[ "key1" := VStr "val1"; "key2" := VStr "val2" ]} "key1" (VStr "val1"));
    vm_compute; reflexivity.
Defined.

Lemma skipped_no_entry line : skipped line = true -> spec_entry line = None.
Proof.
  unfold skipped, spec_entry, truthy. rewrite negb_involutive.
  destruct (String.eqb (strip line) EmptyString || _ || _); [done|]. simpl.
  intros H. apply negb_true_iff, orb_false_iff in H as [-> ->]. done.
Qed.

(** X12: a line the loop passes over (blank, a comment, or with neither
    [=] nor [:]) has no effect wherever it stands: the loop gives the same
    mapping with the line and without it. *)
Theorem properties_skipped_line_has_no_effect d before_ line after_ st :
  skipped line = true ->
  properties_loop d (before_ ++ line :: after_) st
  = properties_loop d (before_ ++ after_) st.
Proof.
  intros H. rewrite !properties_loop_spec, !omap_app. simpl.
  by rewrite (skipped_no_entry line H).
Qed.

Lemma properties_skipped_line_has_no_effect_witness :
  properties_loop ∅ (["a=1"] ++ "! note" :: ["b=2"]) initial
  = properties_loop ∅ (["a=1"] ++ ["b=2"]) initial.
Proof. apply properties_skipped_line_has_no_effect. reflexivity. Defined.

(** ** The INI parser *)

(** X13: when [configparser] reads the file, the INI parser returns a
    mapping of two levels: a section name holds the mapping of the last
    section of that name, and in it every value is a string. *)
Theorem parse_ini_file_two_levels w path st sections :
  configparser_read w path = Ok sections ->
  exists d : gmap string pyval,
    fst (parse_ini_file w path st) = Ok (VDict d)
    /\ (forall sec, d !! sec
                    = (fun kv => VDict (dict_of VStr (snd kv)))
                        <$> last_with fst sec sections)
    /\ (forall sec v, d !! sec = Some v ->
          exists d' : gmap string pyval,
            v = VDict d' /\ forall k v', d' !! k = Some v' -> exists s, v' = VStr s).
Proof.
  intros Hread.
  exists (dict_of (fun items => VDict (dict_of VStr items)) sections).
  assert (Hlook : forall sec,
             dict_of (fun items => VDict (dict_of VStr items)) sections !! sec
             = (fun kv => VDict (dict_of VStr (snd kv))) <$> last_with fst sec sections).
  { intros sec. rewrite dict_of_lookup. by destruct (last_with fst sec sections). }
  split; [|split].
  - unfold parse_ini_file, try_except, bind, emit, lift, ret. simpl. by rewrite Hread.
  - exact Hlook.
  - intros sec v Hsec. rewrite Hlook in Hsec.
    destruct (last_with fst sec sections) as [[name items]|]; [|done].
    injection Hsec as <-. eexists. split; [reflexivity|].
    intros k v' Hk. rewrite dict_of_lookup in Hk.
    destruct (last_with fst k items) as [[k' s]|]; [|done].
    injection Hk as <-. eauto.
Qed.

Lemma parse_ini_file_two_levels_witness :
  exists d : gmap string pyval,
    fst (parse_ini_file ini_world (VStr "app.ini") initial) = Ok (VDict d)
    /\ (forall sec, d !! sec
                    = (fun kv => VDict (dict_of VStr (snd kv)))
                        <$> last_with fst sec
                              [("db", [("host", "h"); ("port", "5432")]);
                               ("log", [("level", "INFO")])])
    /\ (forall sec v, d !! sec = Some v ->
          exists d' : gmap string pyval,
            v = VDict d' /\ forall k v', d' !! k = Some v' -> exists s, v' = VStr s).
Proof.
  apply (parse_ini_file_two_levels ini_world (VStr "app.ini") initial). reflexivity.
Defined.

(** ** The XML conversion: what is kept and what is lost *)

Lemma fold_insert_dom {A} (f : A -> string) (g : A -> pyval) (l : list A)
    (d : gmap string pyval) :
  dom (fold_left (fun d x => <[f x := g x]> d) l d) = dom d ∪ list_to_set (f <$> l).
Proof.
  revert d. induction l as [|x l IH]; intros d; simpl.
  - by rewrite (right_id_L ∅ (∪)).
  - rewrite IH, dom_insert_L.
    by rewrite (comm_L (∪) {[f x]} (dom d)), <- (assoc_L (∪)).
Qed.

Lemma last_with_NoDup {A} (f : A -> string) (l : list A) x :
  NoDup (f <$> l) -> x ∈ l -> last_with f (f x) l = Some x.
Proof.
  unfold last_with. induction l as [|y l IH] using rev_ind; intros Hnd Hin.
  - by apply elem_of_nil in Hin.
  - rewrite fmap_app in Hnd. apply list.NoDup_app in Hnd as (Hnd & Hdis & _).
    rewrite list.filter_app, list.filter_cons, list.filter_nil.
    apply elem_of_app in Hin as [Hin|Hin].
    + destruct (decide (f y = f x)) as [Heq|Hne].
      * exfalso. apply (Hdis (f x)); [by apply list_elem_of_fmap_2|].
        simpl. rewrite Heq. apply list_elem_of_here.
      * rewrite app_nil_r. by apply IH.
    + apply list_elem_of_singleton in Hin as ->.
      rewrite decide_True by done. apply last_snoc.
Qed.

(** X14: the mapping an element with children converts to has exactly
    the tags of the children as keys; when no two children share a tag no
    child is lost: each tag holds the conversion of its child and the
    mapping has as many entries as the element has children. *)
Theorem xml_to_dict_keeps_distinct_children t txt c cs :
  exists d : gmap string pyval,
    xml_to_dict (Elem t txt (c :: cs)) = VDict d
    /\ dom d = list_to_set (tag <$> c :: cs)
    /\ (NoDup (tag <$> c :: cs) ->
        size d = length (c :: cs)
        /\ forall child, child ∈ c :: cs -> d !! tag child = Some (xml_to_dict child)).
Proof.
  eexists. split; [reflexivity|]. split.
  - rewrite (fold_insert_dom tag xml_to_dict (c :: cs) ∅).
    by rewrite dom_empty_L, (left_id_L ∅ (∪)).
  - intros Hnd. split.
    + rewrite <- size_dom, (fold_insert_dom tag xml_to_dict (c :: cs) ∅).
      rewrite dom_empty_L, (left_id_L ∅ (∪)).
      rewrite size_list_to_set by done. by rewrite length_fmap.
    + intros child Hin.
      rewrite (fold_insert_lookup tag xml_to_dict (c :: cs) ∅ (tag child)).
      by rewrite (last_with_NoDup tag (c :: cs) child Hnd Hin).
Qed.

Lemma xml_to_dict_keeps_distinct_children_witness :
  exists d : gmap string pyval,
    xml_to_dict xml_nested = VDict d
    /\ size d = 2%nat
    /\ d !! "name" = Some (VStr "n").
Proof.
  destruct (xml_to_dict_keeps_distinct_children "cfg" None
              (Elem "db" None [Elem "host" (Some "h") []; Elem "port" (Some "1") []])
              [Elem "name" (Some "n") []]) as (d & Hd & _ & Hkeep).
  exists d. split; [exact Hd|].
  destruct Hkeep as [Hsize Hall].
  { simpl. apply list.NoDup_cons. split.
    - intros Hin. apply list_elem_of_singleton in Hin. discriminate.
    - apply list.NoDup_cons. split; [apply not_elem_of_nil | constructor]. }
  split; [exact Hsize|].
  apply (Hall (Elem "name" (Some "n") [])).
  apply list_elem_of_further, list_elem_of_here.
Defined.

Lemma Element_nested_ind (P : Element -> Prop) :
  (forall t txt cs, Forall P cs -> P (Elem t txt cs)) -> forall e, P e.
Proof.
  intros H. fix IH 1. intros [t txt cs]. apply H.
  induction cs as [|c cs IHcs]; constructor; [apply IH | apply IHcs].
Qed.

(** X15: whatever the document, the conversion holds nothing but [None],
    strings and mappings of these at every depth: no list, no number, no
    attribute. *)
Theorem xml_to_dict_shape element : xml_value (xml_to_dict element).
Proof.
  induction element as [t txt cs IH] using Element_nested_ind.
  destruct cs as [|c cs].
  - simpl. destruct txt; constructor.
  - change (xml_value
              (VDict (fold_left (fun result child => <[tag child := xml_to_dict child]> result)
                        (c :: cs) ∅))).
    constructor. intros k v Hk.
    rewrite (fold_insert_lookup tag xml_to_dict (c :: cs) ∅ k) in Hk.
    destruct (last_with tag k (c :: cs)) as [x|] eqn:Hl; [|done].
    injection Hk as <-. apply last_with_Some in Hl as [_ Hin].
    rewrite list.Forall_forall in IH. by apply IH.
Qed.

(** ** Construction: what each outcome leaves behind *)

(** The first construction in a process, as a run of [_setup] on the
    fresh object. *)
Lemma __new___initial w p t lp lt :
  __new__ w p t lp lt initial
  = match _setup w 0 p t lp lt (mk_proc [mk_obj None None] (Some 0%nat) []) with
    | (Ok _, st') => (Ok (_instance st'), st')
    | (Err e, st') => (Err e, st')
    end.
Proof. by rewrite __new___fresh. Qed.

(** X16: when the load of the primary file fails, the first construction
    raises that failure, the logging file is not looked at, and the object
    stays behind as [Config._instance] with no [_config]: every later
    construction returns it, whatever its parameters, and every [get] on it
    raises [AttributeError]. *)
Theorem failed_primary_load_leaves_unusable_instance w p t lp lt e :
  fst (_load_config w p t initial) = Err e ->
  fst (__new__ w p t lp lt initial) = Err e
  /\ trace (snd (__new__ w p t lp lt initial)) = trace (snd (_load_config w p t initial))
  /\ _instance (snd (__new__ w p t lp lt initial)) = Some 0%nat
  /\ (forall p2 t2 lp2 lt2,
         fst (__new__ w p2 t2 lp2 lt2 (snd (__new__ w p t lp lt initial)))
         = Ok (Some 0%nat))
  /\ (forall key dflt,
         fst (get 0 key dflt (snd (__new__ w p t lp lt initial)))
         = Err (mk_exn AttributeError
                  [Lit "'Config' object has no attribute '"; Lit "_config"; Lit "'"])).
Proof.
  intros Hload. rewrite __new___initial. unfold _setup.
  rewrite bind_oblivious by apply oblivious_call__load_config.
  change (call__load_config w [p; t]) with (_load_config w p t). rewrite Hload.
  simpl. split; [reflexivity|]. split; [reflexivity|]. split; [reflexivity|].
  split; reflexivity.
Qed.

Lemma failed_primary_load_leaves_unusable_instance_witness :
  fst (__new__ two_json_world (VStr "missing.json") VNone VNone VNone initial)
  = Err (mk_exn ConfigParseError
           [Lit "Failed to parse JSON file: "; Lit "[Errno 2] No such file or directory"])
  /\ fst (__new__ two_json_world (VStr "a.json") VNone VNone VNone
            (snd (__new__ two_json_world (VStr "missing.json") VNone VNone VNone initial)))
     = Ok (Some 0%nat).
Proof.
  destruct (failed_primary_load_leaves_unusable_instance two_json_world
              (VStr "missing.json") VNone VNone VNone
              (mk_exn ConfigParseError
                 [Lit "Failed to parse JSON file: ";
                  Lit "[Errno 2] No such file or directory"]))
    as (Hraise & _ & _ & Hlater & _).
  { reflexivity. }
  split; [exact Hraise | apply Hlater].
Defined.

(** The first construction once the primary file has loaded. *)
Lemma __new___after_primary w p t lp lt tree :
  fst (_load_config w p t initial) = Ok tree ->
  __new__ w p t lp lt initial
  = let evs1 := trace (snd (_load_config w p t initial)) in
    if truthy lp then
      let evs2 := trace (snd (_load_config w lp lt initial)) in
      match fst (_load_config w lp lt initial) with
      | Err e =>
          (Err e, mk_proc [mk_obj (Some tree) None] (Some 0%nat) (evs1 ++ evs2))
      | Ok ltree =>
          if truthy ltree then
            (match dictConfig w ltree with
             | None => Ok (Some 0%nat)
             | Some e => Err e
             end,
             mk_proc [mk_obj (Some tree) (Some ltree)] (Some 0%nat)
                     ((evs1 ++ evs2) ++ [DictConfig ltree]))
          else
            (Ok (Some 0%nat),
             mk_proc [mk_obj (Some tree) (Some ltree)] (Some 0%nat) (evs1 ++ evs2))
      end
    else
      (Ok (Some 0%nat), mk_proc [mk_obj (Some tree) (Some VNone)] (Some 0%nat) evs1).
Proof.
  intros Hload. rewrite __new___initial. unfold _setup.
  rewrite bind_oblivious by apply oblivious_call__load_config.
  change (call__load_config w [p; t]) with (_load_config w p t). rewrite Hload.
  unfold bind at 1, set__config, update. simpl.
  destruct (truthy lp).
  - rewrite bind_oblivious by apply oblivious__load_config.
    destruct (fst (_load_config w lp lt initial)) as [ltree|e]; [|done].
    unfold bind, set__logging_config, update, get__logging_config, getattr,
      apply_dictConfig, emit, ret, reraise. simpl.
    destruct (truthy ltree); [|done]. simpl.
    by destruct (dictConfig w ltree).
  - rewrite bind_oblivious by apply oblivious_ret. simpl.
    unfold bind, set__logging_config, update, get__logging_config, getattr, ret. simpl.
    by rewrite app_nil_r.
Qed.

(** X17: a construction with no logging file: once the primary file has
    loaded, the instance holds its tree and [None] as logging
    configuration, nothing but that one load has happened ([dictConfig] is
    not called), and the format given for the logging file plays no part. *)
Theorem construction_without_logging_file w p t lp lt tree :
  fst (_load_config w p t initial) = Ok tree ->
  truthy lp = false ->
  __new__ w p t lp lt initial
  = (Ok (Some 0%nat),
     mk_proc [mk_obj (Some tree) (Some VNone)] (Some 0%nat)
             (trace (snd (_load_config w p t initial)))).
Proof.
  intros Hload Hlp. rewrite (__new___after_primary w p t lp lt tree Hload).
  simpl. by rewrite Hlp.
Qed.

Lemma construction_without_logging_file_witness :
  __new__ logging_world (VStr "app.json") VNone VNone (VStr ".yaml") initial
  = (Ok (Some 0%nat),
     mk_proc [mk_obj (Some (VDict {[ "k" := VInt 1 ]})) (Some VNone)] (Some 0%nat)
             (trace (snd (_load_config logging_world (VStr "app.json") VNone initial)))).
Proof. apply construction_without_logging_file; reflexivity. Defined.



(** X19: when the primary file loads and the logging step fails (the
    logging file does not load, or [dictConfig] rejects it), the
    construction raises that failure, yet the object is the instance and
    holds the primary tree: later constructions return it and [get] answers
    from the tree. *)
Theorem failed_logging_step_leaves_working_instance w p t lp lt tree e :
  fst (_load_config w p t initial) = Ok tree ->
  truthy lp = true ->
  logging_step_failure w lp lt = Some e ->
  fst (__new__ w p t lp lt initial) = Err e
  /\ (forall p2 t2 lp2 lt2,
         fst (__new__ w p2 t2 lp2 lt2 (snd (__new__ w p t lp lt initial)))
         = Ok (Some 0%nat))
  /\ (forall key dflt,
         fst (get 0 key dflt (snd (__new__ w p t lp lt initial)))
         = fst (get 0 key dflt (loaded tree))).
Proof.
  intros Hload Hlp Hfail. rewrite (__new___after_primary w p t lp lt tree Hload).
  unfold logging_step_failure in Hfail. simpl. rewrite Hlp.
  destruct (fst (_load_config w lp lt initial)) as [ltree|e'].
  - destruct (truthy ltree); [|done]. rewrite Hfail. simpl.
    split; [done|]. split; [done|]. intros key dflt. by apply get_frame.
  - injection Hfail as ->. simpl.
    split; [done|]. split; [done|]. intros key dflt. by apply get_frame.
Qed.

Lemma failed_logging_step_leaves_working_instance_witness :
  fst (__new__ strict_logging_world (VStr "app.json") VNone (VStr "log.json") VNone initial)
  = Err (mk_exn ValueError [Lit "dictionary doesn't specify a version"])
  /\ fst (get 0 (VStr "k") VNone
            (snd (__new__ strict_logging_world (VStr "app.json") VNone (VStr "log.json")
                    VNone initial)))
     = Ok (VInt 1).
Proof.
  destruct (failed_logging_step_leaves_working_instance strict_logging_world
              (VStr "app.json") VNone (VStr "log.json") VNone
              (VDict {[ "k" := VInt 1 ]})
              (mk_exn ValueError [Lit "dictionary doesn't specify a version"]))
    as (Hraise & _ & Hget); try reflexivity.
  split; [exact Hraise|]. rewrite Hget. vm_compute. reflexivity.
Defined.

(** ** [load_logging_config] with a mapping *)



(** ** The earlier loader *)

(** X21: on a key that is a non-empty string the two versions of [get]
    do the same: same result, same log line. *)
Theorem pytomfig_get_agrees_on_nonempty_keys self key dflt tree st :
  heap st !! self ≫= _config = Some tree ->
  key <> EmptyString ->
  Pytomfig.get self (VStr key) dflt st = get self (VStr key) dflt st.
Proof.
  intros Hcfg Hkey. rewrite (get_run self key dflt st tree Hcfg Hkey).
  unfold Pytomfig.get, split_key, getattr. unfold bind at 1 2. unfold ret at 1.
  by rewrite Hcfg.
Qed.

Lemma pytomfig_get_agrees_on_nonempty_keys_witness :
  Pytomfig.get 0 (VStr "a.b") VNone (loaded tree_ab)
  = get 0 (VStr "a.b") VNone (loaded tree_ab).
Proof.
  apply (pytomfig_get_agrees_on_nonempty_keys 0%nat "a.b" VNone tree_ab (loaded tree_ab));
    first [reflexivity | discriminate].
Defined.

(** X22: on the empty key the earlier [get] does not return the tree: it
    looks the empty string up as a key, and where the mapping has no such
    key it returns the default. *)
Theorem pytomfig_get_empty_key_is_a_lookup self dflt (d : gmap string pyval) st :
  heap st !! self ≫= _config = Some (VDict d) ->
  d !! EmptyString = None ->
  fst (Pytomfig.get self (VStr EmptyString) dflt st) = Ok dflt
  /\ fst (get self (VStr EmptyString) dflt st) = Ok (VDict d).
Proof.
  intros Hcfg Hk. split.
  - unfold Pytomfig.get, split_key, getattr. unfold bind at 1 2. unfold ret at 1.
    rewrite Hcfg. simpl. unfold bind at 1 2. simpl. rewrite Hk. simpl.
    by destruct dflt.
  - by rewrite get_unfold, Hcfg.
Qed.

Lemma pytomfig_get_empty_key_is_a_lookup_witness :
  fst (Pytomfig.get 0 (VStr EmptyString) (VInt 7) (loaded tree_ab)) = Ok (VInt 7)
  /\ fst (get 0 (VStr EmptyString) (VInt 7) (loaded tree_ab)) = Ok tree_ab.
Proof.
  apply (pytomfig_get_empty_key_is_a_lookup 0%nat (VInt 7)
           {[ "a" := VDict {[ "b" := VInt 5 ]} ]} (loaded tree_ab));
    reflexivity.
Defined.

(** X23: the earlier loader reads TOML only.  For a path with any other
    extension it touches no file, and it gives no configuration: it returns
    [None] or raises. *)
Theorem pytomfig_reads_toml_only w path st :
  snd (splitext_str path) <> ".toml" ->
  parser_events (snd (Pytomfig._load_config w (VStr path) st)) = parser_events st
  /\ match fst (Pytomfig._load_config w (VStr path) st) with
     | Ok v => v = VNone
     | Err e => exn_cls e = AttributeError \/ exn_cls e = ValueError
     end.
Proof.
  intros Hext. apply String.eqb_neq in Hext.
  unfold Pytomfig._load_config, Pytomfig.json_load_of_path, no_attribute,
    try_except, bind, splitext, debug, emit, ret, raise. simpl. rewrite Hext.
  repeat match goal with
         | |- context [if ?b then _ else _] => destruct b
         end;
    simpl; rewrite ?caught_by_Exception; simpl;
    (split; [unfold parser_events; simpl; rewrite ?List.filter_app; simpl;
             by rewrite ?app_nil_r | auto]).
Qed.

Lemma pytomfig_reads_toml_only_witness :
  parser_events (snd (Pytomfig._load_config bare_world (VStr "app.yaml") initial))
  = parser_events initial
  /\ match fst (Pytomfig._load_config bare_world (VStr "app.yaml") initial) with
     | Ok v => v = VNone
     | Err e => exn_cls e = AttributeError \/ exn_cls e = ValueError
     end.
Proof. apply pytomfig_reads_toml_only. discriminate. Defined.

(** X24: for a [.toml] path the earlier loader gives what [tomllib] gives,
    and an exception of [tomllib] or of opening the file is raised as it is,
    with no wrapping. *)
Theorem pytomfig_toml_load_is_tomllib w path st :
  snd (splitext_str path) = ".toml" ->
  fst (Pytomfig._load_config w (VStr path) st) = tomllib_load w (VStr path).
Proof.
  intros Hext.
  unfold Pytomfig._load_config, try_except, bind, splitext, debug, emit, lift, ret.
  simpl. rewrite Hext. simpl.
  destruct (tomllib_load w (VStr path)) as [v|e]; [done|].
  simpl. by rewrite caught_by_Exception.
Qed.

Lemma pytomfig_toml_load_is_tomllib_witness :
  fst (Pytomfig._load_config toml_world (VStr "conf.toml") initial)
  = tomllib_load toml_world (VStr "conf.toml").
Proof. apply pytomfig_toml_load_is_tomllib. reflexivity. Defined.

(** X25: for a [.json] path the earlier loader always raises
    [AttributeError]: it hands the path, a string, to [json.load], which
    calls [read] on it.  The file is not opened. *)
Theorem pytomfig_json_always_raises w path st :
  snd (splitext_str path) = ".json" ->
  fst (Pytomfig._load_config w (VStr path) st)
  = Err (mk_exn AttributeError
           [Lit "'"; Lit "str"; Lit "' object has no attribute '"; Lit "read"; Lit "'"])
  /\ parser_events (snd (Pytomfig._load_config w (VStr path) st)) = parser_events st.
Proof.
  intros Hext.
  unfold Pytomfig._load_config, Pytomfig.json_load_of_path, no_attribute,
    try_except, bind, splitext, debug, emit, ret, raise.
  simpl. rewrite Hext. simpl. split; [reflexivity|].
  unfold parser_events. simpl. rewrite !List.filter_app. simpl. by rewrite !app_nil_r.
Qed.

Lemma pytomfig_json_always_raises_witness :
  fst (Pytomfig._load_config two_json_world (VStr "a.json") initial)
  = Err (mk_exn AttributeError
           [Lit "'"; Lit "str"; Lit "' object has no attribute '"; Lit "read"; Lit "'"])
  /\ parser_events (snd (Pytomfig._load_config two_json_world (VStr "a.json") initial))
     = parser_events initial.
Proof. apply pytomfig_json_always_raises. reflexivity. Defined.

Lemma pytomfig_placeholder_load w path st :
  snd (splitext_str path) ∈ placeholder_extensions ->
  Pytomfig._load_config w (VStr path) st
  = (Ok VNone,
     add_trace st [Log DEBUG [Lit "Loading "; Fmt (VStr (snd (splitext_str path)));
                              Lit " file "; Fmt (VStr path); Lit "."]]).
Proof.
  intros Hin. unfold placeholder_extensions in Hin.
  unfold Pytomfig._load_config, try_except, bind, splitext, debug, emit, ret.
  simpl.
  repeat (apply elem_of_cons in Hin as [Hin|Hin]; [by rewrite Hin|]).
  by apply elem_of_nil in Hin.
Qed.

(** X26: with a placeholder extension (YAML, INI, XML, properties, .env,
    shell, Markdown, .config) and no logging file the earlier constructor
    succeeds with [None] as configuration, and on that instance [get] raises
    [AttributeError] for every string key. *)
Theorem pytomfig_placeholder_instance_cannot_get w path lp :
  snd (splitext_str path) ∈ placeholder_extensions ->
  truthy lp = false ->
  fst (Pytomfig.__new__ w (VStr path) lp initial) = Ok (Some 0%nat)
  /\ heap (snd (Pytomfig.__new__ w (VStr path) lp initial))
     = [mk_obj (Some VNone) (Some VNone)]
  /\ forall key dflt,
      fst (Pytomfig.get 0 (VStr key) dflt (snd (Pytomfig.__new__ w (VStr path) lp initial)))
      = Err (mk_exn AttributeError
               [Lit "'"; Lit "NoneType"; Lit "' object has no attribute '"; Lit "get";
                Lit "'"]).
Proof.
  intros Hin Hlp.
  assert (Hrun : Pytomfig.__new__ w (VStr path) lp initial
                 = (Ok (Some 0%nat),
                    mk_proc [mk_obj (Some VNone) (Some VNone)] (Some 0%nat)
                      [Log DEBUG [Lit "Loading "; Fmt (VStr (snd (splitext_str path)));
                                  Lit " file "; Fmt (VStr path); Lit "."]])).
  { unfold Pytomfig.__new__, Pytomfig._setup, bind, get__instance, alloc, set__instance,
      set__config, set__logging_config, update, ret. simpl.
    rewrite (pytomfig_placeholder_load w path _ Hin), Hlp. reflexivity. }
  rewrite Hrun. split; [reflexivity|]. split; [reflexivity|].
  intros key dflt.
  unfold Pytomfig.get, split_key, getattr, bind, ret. simpl.
  pose proof (split_not_nil "." None key) as Hne.
  destruct (split "." None key) as [|k rest]; [done|]. reflexivity.
Qed.

Lemma pytomfig_placeholder_instance_cannot_get_witness :
  fst (Pytomfig.__new__ bare_world (VStr "app.yaml") VNone initial) = Ok (Some 0%nat)
  /\ fst (Pytomfig.get 0 (VStr "a.b") VNone
            (snd (Pytomfig.__new__ bare_world (VStr "app.yaml") VNone initial)))
     = Err (mk_exn AttributeError
              [Lit "'"; Lit "NoneType"; Lit "' object has no attribute '"; Lit "get";
               Lit "'"]).
Proof.
  destruct (pytomfig_placeholder_instance_cannot_get bare_world "app.yaml" VNone)
    as (Hnew & _ & Hget).
  - vm_compute. apply list_elem_of_here.
  - reflexivity.
  - split; [exact Hnew | apply Hget].
Defined.
